(** * VocabVault: verb-type detection, category detection and conjugation tables

    A shallow embedding of [src/lib/configuration.ts] ([detectVerbType],
    [generateConjugations] and its four generators), of [detectCategory] in
    [src/app/api/dictionary/lookup/route.ts], of the classification part of
    [selectResult] in the word form and of the conjugation dispatch of
    [WordDetailDialog]; then of the adjective tables, of [hiraganaToRomaji]
    of the lookup route and of [createInMemoryRateLimiter].

    A JavaScript string is a sequence of UTF-16 code units; it is modelled as
    a list of code units ([N]).  Every kana and kanji used by the code lies in
    the Basic Multilingual Plane, i.e. is one code unit, which is what
    [slice(-1)] and [slice(0, -1)] cut off. *)

From Stdlib Require Import List NArith ZArith Bool Ascii String Lia.
Import ListNotations.

Local Open Scope list_scope.

(** ** JavaScript strings *)

Module JS.

Definition jsstring : Type := list N.

(** Source literals are written as UTF-8 text; [utf16] turns the UTF-8 bytes
    of a literal into the UTF-16 code units the JavaScript engine holds. *)
Fixpoint utf16 (bs : list N) : jsstring :=
  match bs with
  | [] => []
  | b0 :: r0 =>
      if (b0 <? 128)%N then b0 :: utf16 r0
      else
        match r0 with
        | [] => [65533%N]
        | b1 :: r1 =>
            if (b0 <? 224)%N then
              N.lor (N.shiftl (N.land b0 31) 6) (N.land b1 63) :: utf16 r1
            else
              match r1 with
              | [] => [65533%N]
              | b2 :: r2 =>
                  if (b0 <? 240)%N then
                    N.lor (N.shiftl (N.land b0 15) 12)
                      (N.lor (N.shiftl (N.land b1 63) 6) (N.land b2 63))
                    :: utf16 r2
                  else
                    match r2 with
                    | [] => [65533%N]
                    | b3 :: r3 =>
                        let cp :=
                          N.lor (N.shiftl (N.land b0 7) 18)
                            (N.lor (N.shiftl (N.land b1 63) 12)
                               (N.lor (N.shiftl (N.land b2 63) 6) (N.land b3 63))) in
                        let v := (cp - 65536)%N in
                        (55296 + N.shiftr v 10)%N :: (56320 + N.land v 1023)%N :: utf16 r3
                    end
              end
        end
  end.

Definition js (s : string) : jsstring :=
  utf16 (map N_of_ascii (list_ascii_of_string s)).

(** The empty string. *)
Definition empty : jsstring := [].

(** [a === b] on strings. *)
Fixpoint streq (a b : jsstring) : bool :=
  match a, b with
  | [], [] => true
  | x :: a', y :: b' => (x =? y)%N && streq a' b'
  | _, _ => false
  end.

(** [String.prototype.slice(start, end)]; [None] is an omitted [end]. *)
Definition slice (s : jsstring) (start : Z) (finish : option Z) : jsstring :=
  let len := Z.of_nat (List.length s) in
  let from := if (start <? 0)%Z then Z.max (len + start) 0 else Z.min start len in
  let e := match finish with Some e => e | None => len end in
  let to := if (e <? 0)%Z then Z.max (len + e) 0 else Z.min e len in
  let span := Z.max (to - from) 0 in
  firstn (Z.to_nat span) (skipn (Z.to_nat from) s).

(** [String.prototype.endsWith(search)]. *)
Definition endsWith (s search : jsstring) : bool :=
  let start := (Z.of_nat (List.length s) - Z.of_nat (List.length search))%Z in
  if (start <? 0)%Z then false else streq (skipn (Z.to_nat start) s) search.

Fixpoint startsWith (s search : jsstring) : bool :=
  match search, s with
  | [], _ => true
  | y :: search', x :: s' => (x =? y)%N && startsWith s' search'
  | _ :: _, [] => false
  end.

(** [String.prototype.includes(search)]: [search] occurs at some index. *)
Fixpoint includes (s search : jsstring) : bool :=
  startsWith s search
  || match s with
     | [] => false
     | _ :: s' => includes s' search
     end.

(** [Array.prototype.join(sep)] on an array of strings. *)
Fixpoint join (sep : jsstring) (parts : list jsstring) : jsstring :=
  match parts with
  | [] => []
  | [p] => p
  | p :: rest => p ++ sep ++ join sep rest
  end.

(** Truthiness of a [string | null | undefined] value. *)
Definition truthy (v : option jsstring) : bool :=
  match v with
  | Some (_ :: _) => true
  | _ => false
  end.

(** [String.prototype.toLowerCase] restricted to the ASCII letters: the
    instance used to run the classifiers on ASCII tag strings. *)
Definition asciiLower (s : jsstring) : jsstring :=
  map (fun c => if ((65 <=? c) && (c <=? 90))%N then (c + 32)%N else c) s.

End JS.

Import JS.

Arguments js s%_string.


(** ** Data model ([src/lib/types.ts]) *)

Record VerbConjugation : Type := mkConj {
  form : jsstring;
  japanese : jsstring;
  romaji : jsstring;
  usage : jsstring
}.

Inductive WordCategory : Type :=
| verb | noun | adjective_i | adjective_na | adverb | particle | expression
| counter | other.

(** The fields of [Word] that the conjugation dispatch reads. *)
Module Word.
Record t : Type := mk {
  hiragana : jsstring;
  category : WordCategory;
  verb_type : option jsstring
}.
End Word.

(** The fields of [DictionaryResult] that [selectResult] classifies on.
    [category] is optional here because [selectResult] tests
    [!result.category] before using it. *)
Module DictionaryResult.
Record t : Type := mk {
  hiragana : jsstring;
  tags : list jsstring;
  partsOfSpeech : list jsstring;
  category : option WordCategory;
  verbType : option jsstring
}.
End DictionaryResult.

(** ** Verb-type and category detection *)

Definition ichiSounds : list jsstring :=
  [ js "い"; js "え"; js "き"; js "け"; js "ぎ"; js "げ"; js "し"; js "せ";
    js "じ"; js "ぜ"; js "ち"; js "て"; js "ぢ"; js "で"; js "に"; js "ね";
    js "ひ"; js "へ"; js "び"; js "べ"; js "ぴ"; js "ぺ"; js "み"; js "め";
    js "り"; js "れ" ].

(** The second half of [detectVerbType] ("Fallback: detect from ending"),
    reached when no tag key word matched. *)
Definition detectFromEnding (hiragana : jsstring) : option jsstring :=
  if endsWith hiragana (js "る") then
    let stem := slice hiragana 0 (Some (-1)%Z) in
    let lastChar := slice stem (-1) None in
    if existsb (fun s => includes lastChar s || endsWith stem s) ichiSounds
    then Some (js "ichidan")
    else Some (js "godan")
  else if endsWith hiragana (js "う")
          || endsWith hiragana (js "く")
          || endsWith hiragana (js "す")
          || endsWith hiragana (js "つ")
          || endsWith hiragana (js "ぬ")
          || endsWith hiragana (js "ぶ")
          || endsWith hiragana (js "む")
          || endsWith hiragana (js "ぐ")
  then Some (js "godan")
  else if endsWith hiragana (js "する") then Some (js "suru")
  else if streq hiragana (js "くる") || streq hiragana (js "来る") then Some (js "kuru")
  else None.

Section Detection.

(** [String.prototype.toLowerCase] is a built-in of the engine; the
    classifiers are parametric in it. *)
Variable toLowerCase : jsstring -> jsstring.

Definition detectVerbType (hiragana : jsstring) (tags : list jsstring) : option jsstring :=
  let tagStr := toLowerCase (join (js " ") tags) in
  if includes tagStr (js "godan") || includes tagStr (js "v5") then Some (js "godan")
  else if includes tagStr (js "ichidan") || includes tagStr (js "v1") then Some (js "ichidan")
  else if includes tagStr (js "suru") || includes tagStr (js "vs") then Some (js "suru")
  else if includes tagStr (js "kuru") || includes tagStr (js "vk") then Some (js "kuru")
  else detectFromEnding hiragana.

(** [detectCategory] of the lookup route: the pair is
    [{ category, verbType }], [None] for an absent [verbType]. *)
Definition detectCategory (partsOfSpeech : list jsstring) : WordCategory * option jsstring :=
  let pos := toLowerCase (join (js " ") partsOfSpeech) in
  if includes pos (js "ichidan") || includes pos (js "v1") then (verb, Some (js "ichidan"))
  else if includes pos (js "godan") || includes pos (js "v5") then (verb, Some (js "godan"))
  else if includes pos (js "suru") || includes pos (js "vs-") then (verb, Some (js "suru"))
  else if includes pos (js "kuru") || includes pos (js "vk") then (verb, Some (js "kuru"))
  else if includes pos (js "counter") then (counter, None)
  else if includes pos (js "adverb") then (adverb, None)
  else if includes pos (js "particle") then (particle, None)
  else if includes pos (js "expression") then (expression, None)
  else if includes pos (js "i-adjective") || includes pos (js "adj-i") then (adjective_i, None)
  else if includes pos (js "na-adjective") || includes pos (js "adj-na") then (adjective_na, None)
  else if includes pos (js "noun") then (noun, None)
  else if includes pos (js "verb") then (verb, Some (js "godan"))
  else (other, None).

(** The classification computed by [selectResult] of the word form: the
    [category] and [verbType] it stores with [setFormData]. *)
Definition selectResult (result : DictionaryResult.t) : WordCategory * option jsstring :=
  let category0 :=
    match DictionaryResult.category result with Some c => c | None => other end in
  let verbType0 :=
    if truthy (DictionaryResult.verbType result) then DictionaryResult.verbType result
    else None in
  let detected :=
    detectVerbType (DictionaryResult.hiragana result)
      (DictionaryResult.partsOfSpeech result ++ DictionaryResult.tags result) in
  let '(category, verbType) :=
    match DictionaryResult.category result with
    | None | Some other =>
        let pos := toLowerCase (join (js " ") (DictionaryResult.partsOfSpeech result)) in
        if includes pos (js "counter") then (counter, verbType0)
        else if includes pos (js "adverb") || includes pos (js "adv") then (adverb, verbType0)
        else if includes pos (js "particle") then (particle, verbType0)
        else if includes pos (js "expression") || includes pos (js "exp") then (expression, verbType0)
        else if includes pos (js "i-adjective") || includes pos (js "adj-i") then (adjective_i, verbType0)
        else if includes pos (js "na-adjective") || includes pos (js "adj-na") then (adjective_na, verbType0)
        else if includes pos (js "verb") || includes pos (js "v1")
                || includes pos (js "v5") || includes pos (js "vs")
        then (verb, if truthy verbType0 then verbType0 else detected)
        else if includes pos (js "noun") || includes pos (js "n ") then (noun, verbType0)
        else (category0, verbType0)
    | Some _ => (category0, verbType0)
    end in
  match category with
  | verb => (category, if truthy verbType then verbType else detected)
  | _ => (category, verbType)
  end.

End Detection.

(** ** Conjugation tables ([src/lib/configuration.ts]) *)

Definition generateIchidanConjugations (stem : jsstring) : list VerbConjugation :=
  [ mkConj (js "Dictionary") (stem ++ js "る") empty (js "Plain present/future");
    mkConj (js "Masu") (stem ++ js "ます") empty (js "Polite present/future");
    mkConj (js "Te-form") (stem ++ js "て") empty (js "Connecting, requests");
    mkConj (js "Ta-form") (stem ++ js "た") empty (js "Plain past");
    mkConj (js "Mashita") (stem ++ js "ました") empty (js "Polite past");
    mkConj (js "Nai-form") (stem ++ js "ない") empty (js "Plain negative");
    mkConj (js "Masen") (stem ++ js "ません") empty (js "Polite negative");
    mkConj (js "Nakatta") (stem ++ js "なかった") empty (js "Plain past negative");
    mkConj (js "Potential") (stem ++ js "られる") empty (js "Can do");
    mkConj (js "Passive") (stem ++ js "られる") empty (js "Is done");
    mkConj (js "Causative") (stem ++ js "させる") empty (js "Make/let do");
    mkConj (js "Imperative") (stem ++ js "ろ") empty (js "Command");
    mkConj (js "Volitional") (stem ++ js "よう") empty (js "Let's do");
    mkConj (js "Conditional") (stem ++ js "れば") empty (js "If");
    mkConj (js "Tara-form") (stem ++ js "たら") empty (js "If/when") ].

(** One row of the godan [mappings] object. *)
Record GodanRow : Type := mkRow {
  masu : jsstring;
  te : jsstring;
  ta : jsstring;
  nai : jsstring;
  potential : jsstring;
  volitional : jsstring;
  imperative : jsstring;
  conditional : jsstring
}.

(** The [mappings] object literal, as its list of own properties. *)
Definition mappings : list (jsstring * GodanRow) :=
  [ (js "う", mkRow (js "い") (js "って") (js "った") (js "わ") (js "え") (js "お") (js "え") (js "え"));
    (js "く", mkRow (js "き") (js "いて") (js "いた") (js "か") (js "け") (js "こ") (js "け") (js "け"));
    (js "ぐ", mkRow (js "ぎ") (js "いで") (js "いだ") (js "が") (js "げ") (js "ご") (js "げ") (js "げ"));
    (js "す", mkRow (js "し") (js "して") (js "した") (js "さ") (js "せ") (js "そ") (js "せ") (js "せ"));
    (js "つ", mkRow (js "ち") (js "って") (js "った") (js "た") (js "て") (js "と") (js "て") (js "て"));
    (js "ぬ", mkRow (js "に") (js "んで") (js "んだ") (js "な") (js "ね") (js "の") (js "ね") (js "ね"));
    (js "ぶ", mkRow (js "び") (js "んで") (js "んだ") (js "ば") (js "べ") (js "ぼ") (js "べ") (js "べ"));
    (js "む", mkRow (js "み") (js "んで") (js "んだ") (js "ま") (js "め") (js "も") (js "め") (js "め"));
    (js "る", mkRow (js "り") (js "って") (js "った") (js "ら") (js "れ") (js "ろ") (js "れ") (js "れ")) ].

(** [obj[key]] on an object literal: the value of the own property [key],
    [None] for [undefined].  The keys looked up below are at most one code
    unit long, so no property inherited from [Object.prototype] is hit. *)
Fixpoint get {A : Type} (obj : list (jsstring * A)) (key : jsstring) : option A :=
  match obj with
  | [] => None
  | (k, v) :: obj' => if streq key k then Some v else get obj' key
  end.

(** [a || b] on values that are objects or [undefined]. *)
Definition orElse {A : Type} (a b : option A) : option A :=
  match a with
  | Some _ => a
  | None => b
  end.

(** The table built from the dictionary form, the stem and the chosen row. *)
Definition godanForms (hiragana stem teForm taForm : jsstring) (map : GodanRow)
  : list VerbConjugation :=
  [ mkConj (js "Dictionary") hiragana empty (js "Plain present/future");
    mkConj (js "Masu") (stem ++ masu map ++ js "ます") empty (js "Polite present/future");
    mkConj (js "Te-form") teForm empty (js "Connecting, requests");
    mkConj (js "Ta-form") taForm empty (js "Plain past");
    mkConj (js "Mashita") (stem ++ masu map ++ js "ました") empty (js "Polite past");
    mkConj (js "Nai-form") (stem ++ nai map ++ js "ない") empty (js "Plain negative");
    mkConj (js "Masen") (stem ++ masu map ++ js "ません") empty (js "Polite negative");
    mkConj (js "Nakatta") (stem ++ nai map ++ js "なかった") empty (js "Plain past negative");
    mkConj (js "Potential") (stem ++ potential map ++ js "る") empty (js "Can do");
    mkConj (js "Passive") (stem ++ nai map ++ js "れる") empty (js "Is done");
    mkConj (js "Causative") (stem ++ nai map ++ js "せる") empty (js "Make/let do");
    mkConj (js "Imperative") (stem ++ imperative map) empty (js "Command");
    mkConj (js "Volitional") (stem ++ volitional map ++ js "う") empty (js "Let's do");
    mkConj (js "Conditional") (stem ++ conditional map ++ js "ば") empty (js "If");
    mkConj (js "Tara-form") (taForm ++ js "ら") empty (js "If/when") ].

(** The test of the special case for 行く. *)
Definition isIku (hiragana : jsstring) : bool :=
  streq hiragana (js "いく") || streq hiragana (js "行く").

(** [None] stands for the [TypeError] that reading [map.te] raises when
    [map] is [undefined]. *)
Definition generateGodanConjugations (hiragana : jsstring) : option (list VerbConjugation) :=
  let ending := slice hiragana (-1) None in
  let stem := slice hiragana 0 (Some (-1)%Z) in
  match orElse (get mappings ending) (get mappings (js "る")) with
  | None => None
  | Some map =>
      let teForm := if isIku hiragana then stem ++ js "って" else stem ++ te map in
      let taForm := if isIku hiragana then stem ++ js "った" else stem ++ ta map in
      Some (godanForms hiragana stem teForm taForm map)
  end.

Definition generateSuruConjugations (stem : jsstring) : list VerbConjugation :=
  let base := if endsWith stem (js "す") then slice stem 0 (Some (-1)%Z) else stem in
  let prefix := if truthy (Some base) then base else empty in
  [ mkConj (js "Dictionary") (prefix ++ js "する") empty (js "Plain present/future");
    mkConj (js "Masu") (prefix ++ js "します") empty (js "Polite present/future");
    mkConj (js "Te-form") (prefix ++ js "して") empty (js "Connecting, requests");
    mkConj (js "Ta-form") (prefix ++ js "した") empty (js "Plain past");
    mkConj (js "Mashita") (prefix ++ js "しました") empty (js "Polite past");
    mkConj (js "Nai-form") (prefix ++ js "しない") empty (js "Plain negative");
    mkConj (js "Masen") (prefix ++ js "しません") empty (js "Polite negative");
    mkConj (js "Nakatta") (prefix ++ js "しなかった") empty (js "Plain past negative");
    mkConj (js "Potential") (prefix ++ js "できる") empty (js "Can do");
    mkConj (js "Passive") (prefix ++ js "される") empty (js "Is done");
    mkConj (js "Causative") (prefix ++ js "させる") empty (js "Make/let do");
    mkConj (js "Imperative") (prefix ++ js "しろ") empty (js "Command");
    mkConj (js "Volitional") (prefix ++ js "しよう") empty (js "Let's do");
    mkConj (js "Conditional") (prefix ++ js "すれば") empty (js "If");
    mkConj (js "Tara-form") (prefix ++ js "したら") empty (js "If/when") ].

Definition generateKuruConjugations : list VerbConjugation :=
  [ mkConj (js "Dictionary") (js "くる") (js "kuru") (js "Plain present/future");
    mkConj (js "Masu") (js "きます") (js "kimasu") (js "Polite present/future");
    mkConj (js "Te-form") (js "きて") (js "kite") (js "Connecting, requests");
    mkConj (js "Ta-form") (js "きた") (js "kita") (js "Plain past");
    mkConj (js "Mashita") (js "きました") (js "kimashita") (js "Polite past");
    mkConj (js "Nai-form") (js "こない") (js "konai") (js "Plain negative");
    mkConj (js "Masen") (js "きません") (js "kimasen") (js "Polite negative");
    mkConj (js "Nakatta") (js "こなかった") (js "konakatta") (js "Plain past negative");
    mkConj (js "Potential") (js "こられる") (js "korareru") (js "Can do");
    mkConj (js "Passive") (js "こられる") (js "korareru") (js "Is done");
    mkConj (js "Causative") (js "こさせる") (js "kosaseru") (js "Make/let do");
    mkConj (js "Imperative") (js "こい") (js "koi") (js "Command");
    mkConj (js "Volitional") (js "こよう") (js "koyou") (js "Let's do");
    mkConj (js "Conditional") (js "くれば") (js "kureba") (js "If");
    mkConj (js "Tara-form") (js "きたら") (js "kitara") (js "If/when") ].

(** [Some table] is a normal return, [None] an exception. *)
Definition generateConjugations (hiragana verbType : jsstring) : option (list VerbConjugation) :=
  let stem := slice hiragana 0 (Some (-1)%Z) in
  if streq verbType (js "ichidan") then Some (generateIchidanConjugations stem)
  else if streq verbType (js "godan") then generateGodanConjugations hiragana
  else if streq verbType (js "suru") then Some (generateSuruConjugations stem)
  else if streq verbType (js "kuru") then Some generateKuruConjugations
  else Some [].

Definition generateIAdjectiveConjugations (hiragana : jsstring) : list VerbConjugation :=
  let stem := slice hiragana 0 (Some (-1)%Z) in
  [ mkConj (js "Dictionary") hiragana empty (js "Plain present");
    mkConj (js "Polite") (stem ++ js "いです") empty (js "Polite present");
    mkConj (js "Past") (stem ++ js "かった") empty (js "Plain past");
    mkConj (js "Past Polite") (stem ++ js "かったです") empty (js "Polite past");
    mkConj (js "Negative") (stem ++ js "くない") empty (js "Plain negative");
    mkConj (js "Neg. Polite") (stem ++ js "くないです") empty (js "Polite negative");
    mkConj (js "Past Neg.") (stem ++ js "くなかった") empty (js "Plain past neg.");
    mkConj (js "Te-form") (stem ++ js "くて") empty (js "Connecting");
    mkConj (js "Adverb") (stem ++ js "く") empty (js "Adverbial form");
    mkConj (js "Conditional") (stem ++ js "ければ") empty (js "If") ].

Definition generateNaAdjectiveConjugations (hiragana : jsstring) : list VerbConjugation :=
  [ mkConj (js "Dictionary") hiragana empty (js "Plain/attributive");
    mkConj (js "Polite") (hiragana ++ js "です") empty (js "Polite present");
    mkConj (js "Past") (hiragana ++ js "だった") empty (js "Plain past");
    mkConj (js "Past Polite") (hiragana ++ js "でした") empty (js "Polite past");
    mkConj (js "Negative") (hiragana ++ js "じゃない") empty (js "Plain negative");
    mkConj (js "Neg. Polite") (hiragana ++ js "じゃありません") empty (js "Polite negative");
    mkConj (js "Past Neg.") (hiragana ++ js "じゃなかった") empty (js "Plain past neg.");
    mkConj (js "Te-form") (hiragana ++ js "で") empty (js "Connecting");
    mkConj (js "Adverb") (hiragana ++ js "に") empty (js "Adverbial form");
    mkConj (js "Attributive") (hiragana ++ js "な") empty (js "Before nouns") ].

(** The [conjugations] that [WordDetailDialog] computes for a word. *)
Definition WordDetailDialog_conjugations (word : Word.t) : option (list VerbConjugation) :=
  match Word.category word with
  | verb =>
      if truthy (Word.verb_type word) then
        match Word.verb_type word with
        | Some vt => generateConjugations (Word.hiragana word) vt
        | None => Some []
        end
      else Some []
  | adjective_i => Some (generateIAdjectiveConjugations (Word.hiragana word))
  | adjective_na => Some (generateNaAdjectiveConjugations (Word.hiragana word))
  | _ => Some []
  end.

(** ** Reading a result

    [surface name r] is the [japanese] text of the entry of the returned
    table whose [form] label is [name]; [entry0 r] is the [japanese] text at
    index 0; [size r] is the [length] of the returned table. *)

Definition surface (name : jsstring) (r : option (list VerbConjugation)) : option jsstring :=
  match r with
  | Some table => option_map japanese (find (fun c => streq (form c) name) table)
  | None => None
  end.

Definition entry0 (r : option (list VerbConjugation)) : option jsstring :=
  match r with
  | Some (c :: _) => Some (japanese c)
  | _ => None
  end.

Definition size (r : option (list VerbConjugation)) : option nat :=
  option_map (@List.length VerbConjugation) r.

(** The key words of the two classifiers, and the test that a lower-cased
    tag string contains none of a list of key words. *)
Definition verbTypeKeywords : list jsstring :=
  map js ["godan"; "v5"; "ichidan"; "v1"; "suru"; "vs"; "kuru"; "vk"]%string.

Definition categoryVerbKeywords : list jsstring :=
  map js ["ichidan"; "v1"; "godan"; "v5"; "suru"; "vs-"; "kuru"; "vk"]%string.

Definition containsNone (s : jsstring) (keywords : list jsstring) : bool :=
  negb (existsb (includes s) keywords).

Definition knownVerbTypes : list jsstring :=
  map js ["ichidan"; "godan"; "suru"; "kuru"]%string.

(** The 24 morae that the specification lists for the ichidan heuristic
    (the words of the specification, to be compared with [ichiSounds]). *)
Definition specIchidanMorae : list jsstring :=
  map js ["い"; "き"; "ぎ"; "し"; "じ"; "ち"; "に"; "ひ"; "び"; "ぴ"; "え"; "け";
          "げ"; "せ"; "ぜ"; "て"; "で"; "ね"; "へ"; "べ"; "ぺ"; "め"; "れ"; "み"]%string.

(** The nine keys of [mappings], as the claims list them. *)
Definition godanMorae : list jsstring :=
  map js ["う"; "く"; "ぐ"; "す"; "つ"; "ぬ"; "ぶ"; "む"; "る"]%string.

(** ** Romanisation ([hiraganaToRomaji] of the lookup route) *)

(** The [hiraganaMap] object literal, as its list of own properties.  The
    keys looked up are one or two code units long, so no property inherited
    from [Object.prototype] is hit. *)
Definition hiraganaMap : list (jsstring * jsstring) :=
  [ (js "あ", js "a"); (js "い", js "i"); (js "う", js "u"); (js "え", js "e");
    (js "お", js "o"); (js "か", js "ka"); (js "き", js "ki"); (js "く", js "ku");
    (js "け", js "ke"); (js "こ", js "ko"); (js "さ", js "sa"); (js "し", js "shi");
    (js "す", js "su"); (js "せ", js "se"); (js "そ", js "so"); (js "た", js "ta");
    (js "ち", js "chi"); (js "つ", js "tsu"); (js "て", js "te"); (js "と", js "to");
    (js "な", js "na"); (js "に", js "ni"); (js "ぬ", js "nu"); (js "ね", js "ne");
    (js "の", js "no"); (js "は", js "ha"); (js "ひ", js "hi"); (js "ふ", js "fu");
    (js "へ", js "he"); (js "ほ", js "ho"); (js "ま", js "ma"); (js "み", js "mi");
    (js "む", js "mu"); (js "め", js "me"); (js "も", js "mo"); (js "や", js "ya");
    (js "ゆ", js "yu"); (js "よ", js "yo"); (js "ら", js "ra"); (js "り", js "ri");
    (js "る", js "ru"); (js "れ", js "re"); (js "ろ", js "ro"); (js "わ", js "wa");
    (js "を", js "wo"); (js "ん", js "n"); (js "が", js "ga"); (js "ぎ", js "gi");
    (js "ぐ", js "gu"); (js "げ", js "ge"); (js "ご", js "go"); (js "ざ", js "za");
    (js "じ", js "ji"); (js "ず", js "zu"); (js "ぜ", js "ze"); (js "ぞ", js "zo");
    (js "だ", js "da"); (js "ぢ", js "di"); (js "づ", js "du"); (js "で", js "de");
    (js "ど", js "do"); (js "ば", js "ba"); (js "び", js "bi"); (js "ぶ", js "bu");
    (js "べ", js "be"); (js "ぼ", js "bo"); (js "ぱ", js "pa"); (js "ぴ", js "pi");
    (js "ぷ", js "pu"); (js "ぺ", js "pe"); (js "ぽ", js "po"); (js "きゃ", js "kya");
    (js "きゅ", js "kyu"); (js "きょ", js "kyo"); (js "しゃ", js "sha"); (js "しゅ", js "shu");
    (js "しょ", js "sho"); (js "ちゃ", js "cha"); (js "ちゅ", js "chu"); (js "ちょ", js "cho");
    (js "にゃ", js "nya"); (js "にゅ", js "nyu"); (js "にょ", js "nyo"); (js "ひゃ", js "hya");
    (js "ひゅ", js "hyu"); (js "ひょ", js "hyo"); (js "みゃ", js "mya"); (js "みゅ", js "myu");
    (js "みょ", js "myo"); (js "りゃ", js "rya"); (js "りゅ", js "ryu"); (js "りょ", js "ryo");
    (js "ぎゃ", js "gya"); (js "ぎゅ", js "gyu"); (js "ぎょ", js "gyo"); (js "じゃ", js "ja");
    (js "じゅ", js "ju"); (js "じょ", js "jo"); (js "びゃ", js "bya"); (js "びゅ", js "byu");
    (js "びょ", js "byo"); (js "ぴゃ", js "pya"); (js "ぴゅ", js "pyu"); (js "ぴょ", js "pyo");
    (js "っ", empty); (js "ー", js "-") ].

(** The value of a truthy or defined property, the empty string otherwise. *)
Definition valueOf (v : option jsstring) : jsstring :=
  match v with
  | Some x => x
  | None => empty
  end.

(** The [while] loop of [hiraganaToRomaji]: [hiragana] is what is left of
    the input from index [i] on, [result] the text built so far. *)
Fixpoint romajiLoop (hiragana result : jsstring) : jsstring :=
  match hiragana with
  | [] => result
  | c :: rest =>
      let char := get hiraganaMap [c] in
      let single :=
        match char with
        | Some x => result ++ x
        | None => result ++ [c]
        end in
      match rest with
      | d :: rest' =>
          let twoChar := [c; d] in
          if truthy (get hiraganaMap twoChar) then
            romajiLoop rest' (result ++ valueOf (get hiraganaMap twoChar))
          else if streq [c] (js "っ") then
            let nextChar := get hiraganaMap [d] in
            if truthy nextChar
            then romajiLoop rest (result ++ firstn 1 (valueOf nextChar))
            else romajiLoop rest result
          else romajiLoop rest single
      | [] =>
          romajiLoop rest single
      end
  end.

Definition hiraganaToRomaji (hiragana : jsstring) : jsstring :=
  romajiLoop hiragana empty.

(** The code units that take part in a two-unit key or in the doubling
    rule: the small ゃ, ゅ, ょ and the small っ. *)
Definition smallKana : list jsstring := map js ["ゃ"; "ゅ"; "ょ"; "っ"]%string.

(** The romanisation of one code unit on its own: [hiraganaMap[c]], or the
    code unit itself when it is not a key. *)
Definition romajiOf (c : N) : jsstring :=
  match get hiraganaMap [c] with
  | Some x => x
  | None => [c]
  end.

(** The characters that values of [hiraganaMap] are made of: the lower-case
    ASCII letters and the hyphen. *)
Definition isRomajiChar (c : N) : bool :=
  ((97 <=? c) && (c <=? 122) || (c =? 45))%N.

(** The shape of one entry of [hiraganaMap], as a test that is run over the
    whole table: the value is at most three romaji characters; the key is
    one code unit, or two of which the second is a small kana, the first is
    a key of its own other than っ, and then the value is not empty. *)
Definition hiraganaMapEntryOk (p : jsstring * jsstring) : bool :=
  forallb isRomajiChar (snd p)
  && (List.length (snd p) <=? 3)%nat
  && match fst p with
     | [_] => true
     | [c; d] =>
         existsb (streq [d]) smallKana
         && negb (streq [c] (js "っ"))
         && truthy (get hiraganaMap [c])
         && truthy (Some (snd p))
     | _ => false
     end.

(** ** The in-memory rate limiter ([createInMemoryRateLimiter])

    The [tracker] is a [Map] from identifiers to [{ count, resetAt }]
    records; it is modelled as the list of its entries in insertion order.
    The numbers are counts and millisecond time stamps: they are modelled
    as integers, on which the arithmetic of the engine is exact.
    [Date.now()] is the argument [now] of [check]. *)

Module InMemoryRateLimiter.

Record RateLimitTracker : Type := mkTracker {
  count : Z;
  resetAt : Z
}.

Definition Tracker : Type := list (jsstring * RateLimitTracker).

(** [Map.prototype.set]: an existing key keeps its place. *)
Fixpoint mapSet (key : jsstring) (v : RateLimitTracker) (m : Tracker) : Tracker :=
  match m with
  | [] => [(key, v)]
  | (k, x) :: m' => if streq key k then (k, v) :: m' else (k, x) :: mapSet key v m'
  end.


Section Limiter.

Variables windowMs maxRequests : Z.

(** [check(identifier)] at the time [now]: the answer and the tracker it
    leaves.  [existing.count++] updates the record held by the map. *)
Definition check (now : Z) (identifier : jsstring) (tracker : Tracker) : bool * Tracker :=
  let fresh := mkTracker 1 (now + windowMs) in
  match get tracker identifier with
  | None => (true, mapSet identifier fresh tracker)
  | Some existing =>
      if (now >? resetAt existing)%Z then (true, mapSet identifier fresh tracker)
      else if (count existing >=? maxRequests)%Z then (false, tracker)
      else
        (true,
         mapSet identifier (mkTracker (count existing + 1) (resetAt existing)) tracker)
  end.


Definition getTracker (identifier : jsstring) (tracker : Tracker) : option RateLimitTracker :=
  get tracker identifier.




End Limiter.

(** [feedbackRateLimiter]: one hour, five requests. *)
Definition feedbackWindowMs : Z := 60 * 60 * 1000.
Definition feedbackMaxRequests : Z := 5.

End InMemoryRateLimiter.

(** The last test of [detectFromEnding], named for the proofs. *)
Definition isKuruReading (hiragana : jsstring) : bool :=
  streq hiragana (js "くる") || streq hiragana (js "来る").

(** Evaluates every string literal of the goal to its code units. *)
Ltac eval_js :=
  repeat match goal with
         | |- context [js ?s] =>
             let v := eval vm_compute in (js s) in change (js s) with v
         end.

(** * Properties *)

(** ** The string primitives *)

Section StringFacts.

Lemma streq_refl (a : jsstring) : streq a a = true.
Proof.
  induction a as [|x a IH]; simpl; [reflexivity|].
  now rewrite N.eqb_refl, IH.
Qed.

Lemma streq_eq (a b : jsstring) : streq a b = true <-> a = b.
Proof.
  split; [|intros ->; apply streq_refl].
  revert b; induction a as [|x a IH]; intros [|y b]; simpl; try discriminate; auto.
  rewrite andb_true_iff, N.eqb_eq. intros [-> H]. f_equal. now apply IH.
Qed.

Lemma streq_neq (a b : jsstring) : streq a b = false <-> a <> b.
Proof.
  rewrite <- streq_eq. destruct (streq a b); split; congruence.
Qed.

(** Every string is empty or has a last code unit. *)
Lemma snoc_cases (s : jsstring) : s = [] \/ exists p c, s = p ++ [c].
Proof.
  destruct s as [|x s]; [now left | right].
  destruct (@exists_last _ (x :: s)) as (p & c & E); [discriminate|eauto].
Qed.

Lemma slice_init_snoc (p : jsstring) (c : N) : slice (p ++ [c]) 0 (Some (-1)%Z) = p.
Proof.
  unfold slice. rewrite length_app. cbn [List.length].
  change (0 <? 0)%Z with false. change (-1 <? 0)%Z with true. cbv iota.
  replace (Z.min 0 _) with 0%Z by lia.
  replace (Z.max (Z.of_nat (List.length p + 1) + -1) 0) with (Z.of_nat (List.length p)) by lia.
  rewrite Z.sub_0_r, Z.max_l, Nat2Z.id by lia. cbn [Z.to_nat skipn].
  rewrite firstn_app, firstn_all, Nat.sub_diag. cbn [firstn]. apply app_nil_r.
Qed.

Lemma slice_last_nil : slice [] (-1) None = [].
Proof. reflexivity. Qed.

Lemma slice_last_snoc (p : jsstring) (c : N) : slice (p ++ [c]) (-1) None = [c].
Proof.
  unfold slice. rewrite length_app. cbn [List.length].
  change (-1 <? 0)%Z with true. cbv iota.
  destruct (Z.ltb_spec (Z.of_nat (List.length p + 1)) 0); [lia|].
  replace (Z.max (Z.of_nat (List.length p + 1) + -1) 0) with (Z.of_nat (List.length p)) by lia.
  rewrite Z.min_id.
  replace (Z.max (Z.of_nat (List.length p + 1) - Z.of_nat (List.length p)) 0) with 1%Z by lia.
  rewrite Nat2Z.id, skipn_app, skipn_all, Nat.sub_diag. reflexivity.
Qed.

Lemma endsWith_app (p t : jsstring) : endsWith (p ++ t) t = true.
Proof.
  unfold endsWith. rewrite length_app.
  destruct (Z.ltb_spec (Z.of_nat (List.length p + List.length t) - Z.of_nat (List.length t)) 0); [lia|].
  replace (Z.of_nat (List.length p + List.length t) - Z.of_nat (List.length t))%Z
    with (Z.of_nat (List.length p)) by lia.
  rewrite Nat2Z.id, skipn_app, skipn_all, Nat.sub_diag. apply streq_refl.
Qed.

Lemma endsWith_iff (s t : jsstring) : endsWith s t = true <-> exists p, s = p ++ t.
Proof.
  split; [|intros [p ->]; apply endsWith_app].
  unfold endsWith. destruct (_ <? 0)%Z; [discriminate|].
  intros H%streq_eq. rewrite <- H. eexists. symmetry. apply firstn_skipn.
Qed.

(** [endsWith] with a one-unit search string looks at the last code unit. *)
Lemma endsWith_snoc1 (p : jsstring) (c d : N) : endsWith (p ++ [c]) [d] = (c =? d)%N.
Proof.
  destruct (N.eqb_spec c d) as [->|ne]; [apply endsWith_app|].
  destruct (endsWith (p ++ [c]) [d]) eqn:E; [|reflexivity].
  apply endsWith_iff in E as [q E]. apply app_inj_tail in E as [_ E]. contradiction.
Qed.

End StringFacts.

(** ** The generators *)

(** The literals of the source are read as the engine holds them. *)
Example js_kana : js "のむ" = [12398%N; 12416%N].
Proof. reflexivity. Qed.

Example js_ascii : js "v5" = [118%N; 53%N].
Proof. reflexivity. Qed.

(** C1: for verbType godan on the reading のむ, [generateConjugations]
    returns the table built from the stem の and the む row of [mappings]
    (stem + fragment + fixed suffix), and that table holds Dictionary=のむ,
    Masu=のみます, Te-form=のんで, Ta-form=のんだ, Nai-form=のまない,
    Potential=のめる, Imperative=のめ, Volitional=のもう and
    Conditional=のめば. *)
Theorem C1_godan_nomu :
  exists row,
    get mappings (js "む") = Some row /\
    slice (js "のむ") 0 (Some (-1)%Z) = js "の" /\
    let r := generateConjugations (js "のむ") (js "godan") in
    r = Some (godanForms (js "のむ") (js "の") (js "の" ++ te row) (js "の" ++ ta row) row) /\
    surface (js "Dictionary") r = Some (js "のむ") /\
    surface (js "Masu") r = Some (js "のみます") /\
    surface (js "Te-form") r = Some (js "のんで") /\
    surface (js "Ta-form") r = Some (js "のんだ") /\
    surface (js "Nai-form") r = Some (js "のまない") /\
    surface (js "Potential") r = Some (js "のめる") /\
    surface (js "Imperative") r = Some (js "のめ") /\
    surface (js "Volitional") r = Some (js "のもう") /\
    surface (js "Conditional") r = Some (js "のめば").
Proof.
  eexists. split.
  - vm_compute. reflexivity.
  - split; [reflexivity|]. cbv zeta.
    split; [vm_compute; reflexivity|].
    repeat (split; [vm_compute; reflexivity|]). vm_compute. reflexivity.
Qed.

(** C8: with verbType kuru, [generateConjugations] returns the hard-coded
    table of [generateKuruConjugations] whatever the reading is: any two
    readings give the same result, whose fifteen surface texts are くる,
    きます, きて, きた, きました, こない, きません, こなかった, こられる,
    こられる, こさせる, こい, こよう, くれば, きたら. *)
Theorem C8_kuru_ignores_reading (h1 h2 : jsstring) :
  generateConjugations h1 (js "kuru") = generateConjugations h2 (js "kuru") /\
  generateConjugations h1 (js "kuru") = Some generateKuruConjugations /\
  option_map (map japanese) (generateConjugations h1 (js "kuru")) =
    Some (map js ["くる"; "きます"; "きて"; "きた"; "きました"; "こない"; "きません";
                  "こなかった"; "こられる"; "こられる"; "こさせる"; "こい"; "こよう";
                  "くれば"; "きたら"]%string).
Proof.
  assert (K : forall h, generateConjugations h (js "kuru") = Some generateKuruConjugations).
  { intro h. unfold generateConjugations.
    change (streq (js "kuru") (js "ichidan")) with false.
    change (streq (js "kuru") (js "godan")) with false.
    change (streq (js "kuru") (js "suru")) with false.
    change (streq (js "kuru") (js "kuru")) with true.
    reflexivity. }
  rewrite (K h1), (K h2).
  split; [reflexivity|]. split; [reflexivity|]. vm_compute. reflexivity.
Qed.

Lemma generateConjugations_ichidan (h : jsstring) :
  generateConjugations h (js "ichidan") =
    Some (generateIchidanConjugations (slice h 0 (Some (-1)%Z))).
Proof. reflexivity. Qed.

Lemma generateConjugations_godan (h : jsstring) :
  generateConjugations h (js "godan") = generateGodanConjugations h.
Proof. reflexivity. Qed.

Lemma generateConjugations_suru (h : jsstring) :
  generateConjugations h (js "suru") =
    Some (generateSuruConjugations (slice h 0 (Some (-1)%Z))).
Proof. reflexivity. Qed.

(** The final る is one code unit. *)
Lemma endsWith_ru (h : jsstring) :
  endsWith h (js "る") = true <-> exists p, h = p ++ js "る".
Proof. apply endsWith_iff. Qed.

Lemma slice_init_ru (p : jsstring) : slice (p ++ js "る") 0 (Some (-1)%Z) = p.
Proof. eval_js. apply slice_init_snoc. Qed.

(** C4, as the code has it: for every reading, [generateConjugations] with
    verbType ichidan returns exactly 15 forms, and the surface text at
    index 0 is the reading without its last code unit followed by る; it is
    the original reading exactly when the reading ends in る. *)
Theorem C4_ichidan_table (h : jsstring) :
  let r := generateConjugations h (js "ichidan") in
  size r = Some 15 /\
  surface (js "Dictionary") r = entry0 r /\
  entry0 r = Some (slice h 0 (Some (-1)%Z) ++ js "る") /\
  (entry0 r = Some h <-> endsWith h (js "る") = true).
Proof.
  cbv zeta. rewrite generateConjugations_ichidan.
  split; [reflexivity|]. split; [reflexivity|]. split; [reflexivity|].
  cbn [entry0 generateIchidanConjugations japanese]. split.
  - intros [= E]. apply endsWith_ru. eauto.
  - intros [p ->]%endsWith_ru. now rewrite slice_init_ru.
Qed.

(** C4 as stated fails: on the reading のむ the ichidan table starts with
    のる, not with the reading. *)
Lemma C4_counterexample :
  entry0 (generateConjugations (js "のむ") (js "ichidan")) = Some (js "のる") /\
  entry0 (generateConjugations (js "のむ") (js "ichidan")) <> Some (js "のむ").
Proof. split; [reflexivity|]. vm_compute. discriminate. Qed.

(** C9: for every reading that ends in する, [generateConjugations] with
    verbType suru returns a 15-form table whose index-0 Dictionary entry is
    the reading itself: dropping the final る, then the trailing す, and
    appending する gives the reading back. *)
Theorem C9_suru_round_trip (h : jsstring) :
  endsWith h (js "する") = true ->
  let r := generateConjugations h (js "suru") in
  size r = Some 15 /\
  surface (js "Dictionary") r = entry0 r /\
  entry0 r = Some h /\
  slice (slice h 0 (Some (-1)%Z)) 0 (Some (-1)%Z) ++ js "する" = h.
Proof.
  intros [p ->]%endsWith_iff. cbv zeta. rewrite generateConjugations_suru.
  split; [reflexivity|]. split; [reflexivity|].
  assert (S1 : slice (p ++ js "する") 0 (Some (-1)%Z) = p ++ js "す").
  { eval_js. change (p ++ [12377%N; 12427%N]) with (p ++ [12377%N] ++ [12427%N]).
    rewrite app_assoc. apply slice_init_snoc. }
  assert (S2 : slice (p ++ js "す") 0 (Some (-1)%Z) = p).
  { eval_js. apply slice_init_snoc. }
  rewrite S1, S2. split; [|reflexivity].
  unfold generateSuruConjugations. rewrite endsWith_app, S2.
  cbn [entry0 japanese]. now destruct p.
Qed.

Lemma C9_suru_round_trip_witness :
  endsWith (js "べんきょうする") (js "する") = true /\
  entry0 (generateConjugations (js "べんきょうする") (js "suru")) = Some (js "べんきょうする").
Proof.
  split; [reflexivity|].
  exact (proj1 (proj2 (proj2 (C9_suru_round_trip (js "べんきょうする") eq_refl)))).
Defined.

(** *** The godan table *)

Lemma get_notin {A : Type} (obj : list (jsstring * A)) (key : jsstring) :
  ~ In key (map fst obj) -> get obj key = None.
Proof.
  induction obj as [|[k v] obj IH]; simpl; [reflexivity|].
  intros H. destruct (streq key k) eqn:E.
  - apply streq_eq in E. subst. exfalso. auto.
  - apply IH. auto.
Qed.

Lemma mappings_keys : map fst mappings = godanMorae.
Proof. reflexivity. Qed.

Lemma isIku_true (h : jsstring) : isIku h = true <-> h = js "いく" \/ h = js "行く".
Proof. unfold isIku. now rewrite orb_true_iff, !streq_eq. Qed.

(** What [generateGodanConjugations] returns on a reading [p ++ く]. *)
Lemma generateGodanConjugations_ku (p : jsstring) :
  exists row,
    get mappings (js "く") = Some row /\
    te row = js "いて" /\ ta row = js "いた" /\
    generateGodanConjugations (p ++ js "く") =
      Some (godanForms (p ++ js "く") p
              (if isIku (p ++ js "く") then p ++ js "って" else p ++ te row)
              (if isIku (p ++ js "く") then p ++ js "った" else p ++ ta row) row).
Proof.
  eexists. split; [vm_compute; reflexivity|]. split; [reflexivity|]. split; [reflexivity|].
  unfold generateGodanConjugations.
  replace (slice (p ++ js "く") (-1) None) with (js "く")
    by (symmetry; apply slice_last_snoc).
  replace (slice (p ++ js "く") 0 (Some (-1)%Z)) with p
    by (symmetry; apply slice_init_snoc).
  reflexivity.
Qed.

(** C2, as the code has it: for a godan reading ending in く, the て/た
    fragments of the く row are replaced by って/った exactly when the reading
    is いく or 行く, giving stem + って, stem + った and stem + ったら, that is
    いって, いった, いったら for いく and 行って, 行った, 行ったら for 行く; every
    other reading ending in く gets the generic stem + いて, stem + いた and
    stem + いたら. *)
Theorem C2_iku_override (h : jsstring) :
  endsWith h (js "く") = true ->
  let stem := slice h 0 (Some (-1)%Z) in
  let r := generateConjugations h (js "godan") in
  (h = js "いく" \/ h = js "行く" ->
     surface (js "Te-form") r = Some (stem ++ js "って") /\
     surface (js "Ta-form") r = Some (stem ++ js "った") /\
     surface (js "Tara-form") r = Some (stem ++ js "ったら")) /\
  (h <> js "いく" /\ h <> js "行く" ->
     surface (js "Te-form") r = Some (stem ++ js "いて") /\
     surface (js "Ta-form") r = Some (stem ++ js "いた") /\
     surface (js "Tara-form") r = Some (stem ++ js "いたら")) /\
  (h = js "いく" ->
     surface (js "Te-form") r = Some (js "いって") /\
     surface (js "Ta-form") r = Some (js "いった") /\
     surface (js "Tara-form") r = Some (js "いったら")) /\
  (h = js "行く" ->
     surface (js "Te-form") r = Some (js "行って") /\
     surface (js "Ta-form") r = Some (js "行った") /\
     surface (js "Tara-form") r = Some (js "行ったら")).
Proof.
  intros [p ->]%endsWith_iff. cbv zeta.
  rewrite generateConjugations_godan.
  destruct (generateGodanConjugations_ku p) as (row & _ & Hte & Hta & ->).
  replace (slice (p ++ js "く") 0 (Some (-1)%Z)) with p
    by (symmetry; apply slice_init_snoc).
  cbn [surface godanForms find form streq japanese option_map].
  rewrite Hte, Hta.
  destruct (isIku (p ++ js "く")) eqn:E.
  - split; [intros _|split; [intros [N1 N2]|split; intros E']].
    + repeat split. now rewrite <- app_assoc.
    + apply isIku_true in E. tauto.
    + change (js "いく") with (js "い" ++ js "く") in E'.
      apply app_inv_tail in E'. subst p. repeat split.
    + change (js "行く") with (js "行" ++ js "く") in E'.
      apply app_inv_tail in E'. subst p. repeat split.
  - assert (N : ~ (p ++ js "く" = js "いく" \/ p ++ js "く" = js "行く")).
    { rewrite <- isIku_true, E. discriminate. }
    split; [tauto|]. split; [|tauto].
    intros _. repeat split. now rewrite <- app_assoc.
Qed.

Lemma C2_iku_override_witness :
  endsWith (js "いく") (js "く") = true /\
  surface (js "Te-form") (generateConjugations (js "いく") (js "godan")) = Some (js "いって") /\
  surface (js "Ta-form") (generateConjugations (js "いく") (js "godan")) = Some (js "いった") /\
  surface (js "Tara-form") (generateConjugations (js "いく") (js "godan")) = Some (js "いったら").
Proof.
  split; [reflexivity|].
  exact (proj1 (proj2 (proj2 (C2_iku_override (js "いく") eq_refl))) eq_refl).
Defined.

(** C2 as stated fails on 行く: the override keeps the kanji stem, so the
    Te-form and Ta-form are 行って and 行った, not いって and いった. *)
Lemma C2_counterexample :
  surface (js "Te-form") (generateConjugations (js "行く") (js "godan")) = Some (js "行って") /\
  surface (js "Ta-form") (generateConjugations (js "行く") (js "godan")) = Some (js "行った") /\
  surface (js "Te-form") (generateConjugations (js "行く") (js "godan")) <> Some (js "いって") /\
  surface (js "Ta-form") (generateConjugations (js "行く") (js "godan")) <> Some (js "いった").
Proof.
  split; [reflexivity|]. split; [reflexivity|].
  split; vm_compute; discriminate.
Qed.

Lemma isIku_godanMorae (h : jsstring) :
  isIku h = true -> In (slice h (-1) None) godanMorae.
Proof.
  intros [-> | ->]%isIku_true; vm_compute; tauto.
Qed.

(** C10: for every reading, the empty one included, whose final code unit
    is not one of the nine keys う, く, ぐ, す, つ, ぬ, ぶ, む, る of
    [mappings], [generateConjugations] with verbType godan raises nothing:
    the lookup yields [undefined], the る row is taken instead, and the full
    15-form table built from the stem and the る-row fragments is
    returned. *)
Theorem C10_godan_fallback (h : jsstring) :
  ~ In (slice h (-1) None) godanMorae ->
  get mappings (slice h (-1) None) = None /\
  exists row,
    get mappings (js "る") = Some row /\
    row = mkRow (js "り") (js "って") (js "った") (js "ら") (js "れ") (js "ろ") (js "れ") (js "れ") /\
    let stem := slice h 0 (Some (-1)%Z) in
    let r := generateConjugations h (js "godan") in
    r = Some (godanForms h stem (stem ++ te row) (stem ++ ta row) row) /\
    size r = Some 15.
Proof.
  intros H.
  assert (G : get mappings (slice h (-1) None) = None).
  { apply get_notin. now rewrite mappings_keys. }
  split; [exact G|].
  eexists. split; [vm_compute; reflexivity|]. split; [reflexivity|].
  cbv zeta. rewrite generateConjugations_godan.
  unfold generateGodanConjugations. rewrite G.
  destruct (isIku h) eqn:E; [exfalso; auto using isIku_godanMorae|].
  split; reflexivity.
Qed.

Lemma C10_godan_fallback_witness :
  ~ In (slice (js "たべた") (-1) None) godanMorae /\
  size (generateConjugations (js "たべた") (js "godan")) = Some 15 /\
  surface (js "Masu") (generateConjugations (js "たべた") (js "godan")) = Some (js "たべります").
Proof.
  assert (H : ~ In (slice (js "たべた") (-1) None) godanMorae).
  { vm_compute. intuition discriminate. }
  split; [exact H|].
  destruct (C10_godan_fallback (js "たべた") H) as (_ & row & _ & -> & -> & _).
  split; reflexivity.
Defined.

Lemma C10_godan_fallback_empty :
  ~ In (slice empty (-1) None) godanMorae /\
  option_map (map japanese) (generateConjugations empty (js "godan")) =
    Some (empty ::
          map js ["ります"; "って"; "った"; "りました"; "らない"; "りません";
                  "らなかった"; "れる"; "られる"; "らせる"; "れ"; "ろう"; "れば";
                  "ったら"]%string).
Proof.
  split; [vm_compute; intuition discriminate | vm_compute; reflexivity].
Qed.

(** ** Verb-type detection *)

Lemma containsNone_includes (s : jsstring) (keywords : list jsstring) (k : jsstring) :
  containsNone s keywords = true -> In k keywords -> includes s k = false.
Proof.
  unfold containsNone. rewrite negb_true_iff. intros H Hk.
  destruct (includes s k) eqn:E; [|reflexivity].
  rewrite <- H. symmetry. apply existsb_exists. eauto.
Qed.

(** Without a key word in the tags, [detectVerbType] is the ending-based
    fallback. *)
Lemma detectVerbType_no_keyword (toLowerCase : jsstring -> jsstring)
  (h : jsstring) (tags : list jsstring) :
  containsNone (toLowerCase (join (js " ") tags)) verbTypeKeywords = true ->
  detectVerbType toLowerCase h tags = detectFromEnding h.
Proof.
  intros H. unfold detectVerbType.
  rewrite !(containsNone_includes _ _ _ H) by (cbn [verbTypeKeywords map In]; tauto).
  reflexivity.
Qed.

Lemma ichiSounds_units : Forall (fun s => exists d, s = [d]) ichiSounds.
Proof. repeat constructor; eexists; reflexivity. Qed.

Lemma includes_unit (c d : N) : includes [c] [d] = (c =? d)%N.
Proof. cbn. now rewrite !orb_false_r, andb_true_r. Qed.

(** The test of the heuristic is membership of the last code unit of the
    stem in [ichiSounds]. *)
Lemma ichiSounds_test (stem : jsstring) :
  existsb (fun s => includes (slice stem (-1) None) s || endsWith stem s) ichiSounds = true
  <-> In (slice stem (-1) None) ichiSounds.
Proof.
  destruct (snoc_cases stem) as [-> | (p & c & ->)].
  - rewrite slice_last_nil. split; [discriminate|].
    vm_compute. intuition discriminate.
  - rewrite slice_last_snoc, existsb_exists. split.
    + intros (s & Hs & T).
      destruct (proj1 (Forall_forall _ _) ichiSounds_units s Hs) as [d ->].
      rewrite includes_unit, endsWith_snoc1, orb_diag in T.
      apply N.eqb_eq in T. now subst.
    + intros Hc. exists [c]. split; [exact Hc|].
      now rewrite includes_unit, N.eqb_refl.
Qed.

Lemma detectFromEnding_ru (p : jsstring) :
  (In (slice p (-1) None) ichiSounds ->
     detectFromEnding (p ++ js "る") = Some (js "ichidan")) /\
  (~ In (slice p (-1) None) ichiSounds ->
     detectFromEnding (p ++ js "る") = Some (js "godan")).
Proof.
  unfold detectFromEnding. rewrite endsWith_app, slice_init_ru.
  destruct (existsb _ ichiSounds) eqn:E.
  - apply ichiSounds_test in E. tauto.
  - split; [|reflexivity]. intros H%ichiSounds_test. congruence.
Qed.

(** C3, as the code has it: for every reading ending in る whose tags match
    none of the verb-type key words, [detectVerbType] returns ichidan
    exactly when the final mora of the stem (the reading minus the final る)
    is one of the 26 elements of [ichiSounds], the 24 morae the
    specification lists together with ぢ and り, and returns godan for every
    other る-final reading. *)
Theorem C3_ru_final_heuristic (toLowerCase : jsstring -> jsstring)
  (h : jsstring) (tags : list jsstring) :
  containsNone (toLowerCase (join (js " ") tags)) verbTypeKeywords = true ->
  endsWith h (js "る") = true ->
  let mora := slice (slice h 0 (Some (-1)%Z)) (-1) None in
  (In mora ichiSounds -> detectVerbType toLowerCase h tags = Some (js "ichidan")) /\
  (~ In mora ichiSounds -> detectVerbType toLowerCase h tags = Some (js "godan")) /\
  (forall m, In m ichiSounds <-> In m (specIchidanMorae ++ [js "ぢ"; js "り"])).
Proof.
  intros K [p ->]%endsWith_ru. cbv zeta.
  rewrite (detectVerbType_no_keyword _ _ _ K), slice_init_ru.
  split; [apply detectFromEnding_ru|]. split; [apply detectFromEnding_ru|].
  intros m. unfold ichiSounds, specIchidanMorae. cbn [map app In]. tauto.
Qed.

Lemma C3_ru_final_heuristic_witness :
  containsNone (asciiLower (join (js " ") [])) verbTypeKeywords = true /\
  endsWith (js "たべる") (js "る") = true /\
  In (slice (slice (js "たべる") 0 (Some (-1)%Z)) (-1) None) ichiSounds /\
  detectVerbType asciiLower (js "たべる") [] = Some (js "ichidan").
Proof.
  assert (M : In (slice (slice (js "たべる") 0 (Some (-1)%Z)) (-1) None) ichiSounds).
  { vm_compute. tauto. }
  split; [reflexivity|]. split; [reflexivity|]. split; [exact M|].
  exact (proj1 (C3_ru_final_heuristic asciiLower (js "たべる") [] eq_refl eq_refl) M).
Defined.

(** C3 as stated fails on かりる: the stem ends in り, which is not among the
    24 morae of the claim, and [detectVerbType] returns ichidan, not
    godan. *)
Lemma C3_counterexample :
  endsWith (js "かりる") (js "る") = true /\
  slice (slice (js "かりる") 0 (Some (-1)%Z)) (-1) None = js "り" /\
  ~ In (js "り") specIchidanMorae /\
  detectVerbType asciiLower (js "かりる") [] = Some (js "ichidan") /\
  detectVerbType asciiLower (js "かりる") [] <> Some (js "godan").
Proof.
  split; [reflexivity|]. split; [reflexivity|]. split.
  - vm_compute. intuition discriminate.
  - split; [reflexivity|]. vm_compute. discriminate.
Qed.

(** C5 (what the code does): the る test of the ending-based fallback comes
    first and always returns, so for a reading that ends in する, and for
    the readings くる and 来る, [detectVerbType] without a tag key word
    returns godan; the suru and kuru tests below it are never reached. *)
Theorem C5_suru_kuru_shadowed (toLowerCase : jsstring -> jsstring)
  (h : jsstring) (tags : list jsstring) :
  containsNone (toLowerCase (join (js " ") tags)) verbTypeKeywords = true ->
  endsWith h (js "する") = true \/ h = js "くる" \/ h = js "来る" ->
  detectVerbType toLowerCase h tags = Some (js "godan").
Proof.
  intros K H. rewrite (detectVerbType_no_keyword _ _ _ K).
  assert (E : exists p c, h = (p ++ [c]) ++ js "る" /\ ~ In [c] ichiSounds).
  { destruct H as [[p ->]%endsWith_iff | [-> | ->]].
    - (* the stem ends in す *)
      exists p, 12377%N. split; [now rewrite <- app_assoc|].
      vm_compute. intuition discriminate.
    - (* the stem is く *)
      exists [], 12367%N. split; [reflexivity|]. vm_compute. intuition discriminate.
    - (* the stem is 来 *)
      exists [], 26469%N. split; [reflexivity|]. vm_compute. intuition discriminate. }
  destruct E as (p & c & -> & N).
  apply detectFromEnding_ru. now rewrite slice_last_snoc.
Qed.

Lemma C5_suru_kuru_shadowed_witness :
  detectVerbType asciiLower (js "する") [] = Some (js "godan") /\
  detectVerbType asciiLower (js "べんきょうする") [] = Some (js "godan") /\
  detectVerbType asciiLower (js "くる") [] = Some (js "godan") /\
  detectVerbType asciiLower (js "来る") [] = Some (js "godan").
Proof.
  split; [|split; [|split]].
  - apply (C5_suru_kuru_shadowed asciiLower (js "する") []); [reflexivity|].
    left. reflexivity.
  - apply (C5_suru_kuru_shadowed asciiLower (js "べんきょうする") []); [reflexivity|].
    left. reflexivity.
  - apply (C5_suru_kuru_shadowed asciiLower (js "くる") []); [reflexivity|].
    right. left. reflexivity.
  - apply (C5_suru_kuru_shadowed asciiLower (js "来る") []); [reflexivity|].
    right. right. reflexivity.
Defined.

(** ** Category detection *)

(** C6: when the lower-cased concatenation of the parts of speech contains
    "adverb", none of the verb sub-type key words (ichidan, v1, godan, v5,
    suru, vs-, kuru, vk) and not "counter", [detectCategory] returns
    (adverb, no verb type), whether or not "verb" occurs in it as well: the
    adverb rule stands before the generic "verb" rule.  [selectResult] keeps
    that classification of the lookup route, and reaches it by its own
    rules when the result carries no category. *)
Theorem C6_adverb_precedence (toLowerCase : jsstring -> jsstring)
  (partsOfSpeech : list jsstring) :
  includes (toLowerCase (join (js " ") partsOfSpeech)) (js "adverb") = true ->
  containsNone (toLowerCase (join (js " ") partsOfSpeech))
    (categoryVerbKeywords ++ [js "counter"]) = true ->
  detectCategory toLowerCase partsOfSpeech = (adverb, None) /\
  (forall hiragana tags,
     selectResult toLowerCase
       (DictionaryResult.mk hiragana tags partsOfSpeech
          (Some (fst (detectCategory toLowerCase partsOfSpeech)))
          (snd (detectCategory toLowerCase partsOfSpeech)))
     = (adverb, None)) /\
  (forall hiragana tags,
     selectResult toLowerCase
       (DictionaryResult.mk hiragana tags partsOfSpeech None None) = (adverb, None) /\
     selectResult toLowerCase
       (DictionaryResult.mk hiragana tags partsOfSpeech (Some other) None) = (adverb, None)).
Proof.
  intros A K.
  assert (D : detectCategory toLowerCase partsOfSpeech = (adverb, None)).
  { unfold detectCategory.
    rewrite !(containsNone_includes _ _ _ K)
      by (cbn [categoryVerbKeywords map app In]; tauto).
    rewrite A. reflexivity. }
  split; [exact D|]. split; [intros hiragana tags; rewrite D; reflexivity|].
  assert (C : includes (toLowerCase (join (js " ") partsOfSpeech)) (js "counter") = false).
  { apply (containsNone_includes _ _ _ K). cbn [categoryVerbKeywords map app In]. tauto. }
  intros hiragana tags. unfold selectResult.
  cbn [DictionaryResult.category DictionaryResult.partsOfSpeech DictionaryResult.verbType truthy].
  rewrite C, A. split; reflexivity.
Qed.

Lemma C6_adverb_precedence_witness :
  includes (asciiLower (join (js " ") [js "adverbial-verb-form"])) (js "adverb") = true /\
  includes (asciiLower (join (js " ") [js "adverbial-verb-form"])) (js "verb") = true /\
  containsNone (asciiLower (join (js " ") [js "adverbial-verb-form"]))
    (categoryVerbKeywords ++ [js "counter"]) = true /\
  detectCategory asciiLower [js "adverbial-verb-form"] = (adverb, None).
Proof.
  split; [reflexivity|]. split; [reflexivity|]. split; [reflexivity|].
  exact (proj1 (C6_adverb_precedence asciiLower [js "adverbial-verb-form"] eq_refl eq_refl)).
Defined.

(** ** The empty table *)

Lemma generateConjugations_unknown (h vt : jsstring) :
  ~ In vt knownVerbTypes -> generateConjugations h vt = Some [].
Proof.
  intros H. unfold generateConjugations.
  assert (F : forall k, In k knownVerbTypes -> streq vt k = false).
  { intros k Hk. apply streq_neq. intros ->. auto. }
  rewrite !F by (cbn [knownVerbTypes map In]; tauto). reflexivity.
Qed.

(** C7: for every reading, a word of a category that has no conjugation
    (noun, adverb, particle, expression, counter, other), and a verb whose
    verb type is absent or none of ichidan, godan, suru, kuru, gets the
    empty table, of length 0, as a normal result: nothing is raised. *)
Theorem C7_empty_table (hiragana : jsstring) (category : WordCategory)
  (verb_type : option jsstring) :
  In category [noun; adverb; particle; expression; counter; other]
  \/ (category = verb
      /\ (verb_type = None \/ exists vt, verb_type = Some vt /\ ~ In vt knownVerbTypes)) ->
  let r := WordDetailDialog_conjugations (Word.mk hiragana category verb_type) in
  r = Some [] /\ size r = Some 0 /\
  (category = verb -> forall vt, verb_type = Some vt ->
     generateConjugations hiragana vt = Some []).
Proof.
  intros H. cbv zeta.
  assert (R : WordDetailDialog_conjugations (Word.mk hiragana category verb_type) = Some []).
  { destruct H as [H | (-> & [-> | (vt & -> & N)])].
    - cbn [In] in H. unfold WordDetailDialog_conjugations. cbn [Word.category].
      destruct category; try reflexivity; intuition discriminate.
    - reflexivity.
    - unfold WordDetailDialog_conjugations. cbn [Word.category Word.verb_type Word.hiragana].
      destruct (truthy (Some vt)); [|reflexivity].
      now apply generateConjugations_unknown. }
  rewrite R. split; [reflexivity|]. split; [reflexivity|].
  intros -> vt ->. destruct H as [H | (_ & [H | (vt' & [= <-] & N)])].
  - cbn [In] in H. intuition discriminate.
  - discriminate.
  - now apply generateConjugations_unknown.
Qed.

Lemma C7_empty_table_witness :
  WordDetailDialog_conjugations (Word.mk (js "ねこ") noun None) = Some [] /\
  WordDetailDialog_conjugations (Word.mk (js "のむ") verb None) = Some [] /\
  WordDetailDialog_conjugations (Word.mk (js "のむ") verb (Some (js "irregular"))) = Some [].
Proof.
  split; [|split].
  - refine (proj1 (C7_empty_table (js "ねこ") noun None _)).
    left. cbn [In]. tauto.
  - refine (proj1 (C7_empty_table (js "のむ") verb None _)).
    right. split; [reflexivity|]. now left.
  - refine (proj1 (C7_empty_table (js "のむ") verb (Some (js "irregular")) _)).
    right. split; [reflexivity|]. right. eexists. split; [reflexivity|].
    vm_compute. intuition discriminate.
Defined.

(** * Further properties of the conjugation tables *)

Lemma knownVerbTypes_cases (vt : jsstring) :
  In vt knownVerbTypes ->
  vt = js "ichidan" \/ vt = js "godan" \/ vt = js "suru" \/ vt = js "kuru".
Proof. cbn [knownVerbTypes map In]. intuition auto. Qed.

Lemma generateConjugations_kuru (h : jsstring) :
  generateConjugations h (js "kuru") = Some generateKuruConjugations.
Proof. reflexivity. Qed.

(** The godan lookup never ends in [undefined]: the る row is always there. *)
Lemma generateGodanConjugations_total (h : jsstring) :
  exists row teForm taForm,
    generateGodanConjugations h =
      Some (godanForms h (slice h 0 (Some (-1)%Z)) teForm taForm row).
Proof.
  unfold generateGodanConjugations.
  destruct (get mappings (slice h (-1) None)) as [row|]; cbn [orElse].
  - eauto.
  - vm_compute (get mappings (js "る")). eauto.
Qed.

(** [generateConjugations] with verbType godan never raises: for every
    reading, mapped ending or not, it returns 15 forms, and the Dictionary
    entry at index 0 is the reading itself, unchanged. *)
Theorem godan_table_total (h : jsstring) :
  let r := generateConjugations h (js "godan") in
  size r = Some 15 /\ entry0 r = Some h /\ surface (js "Dictionary") r = Some h.
Proof.
  cbv zeta. rewrite generateConjugations_godan.
  destruct (generateGodanConjugations_total h) as (row & teForm & taForm & ->).
  repeat split.
Qed.

(** In every table of a known verb type, whatever the reading, the
    Tara-form is the Ta-form of the same table followed by ら. *)
Theorem tara_is_ta_ra (h vt : jsstring) :
  In vt knownVerbTypes ->
  let r := generateConjugations h vt in
  exists taForm,
    surface (js "Ta-form") r = Some taForm /\
    surface (js "Tara-form") r = Some (taForm ++ js "ら").
Proof.
  intros [-> | [-> | [-> | ->]]]%knownVerbTypes_cases; cbv zeta.
  - rewrite generateConjugations_ichidan. eexists. split; [reflexivity|].
    cbn [surface generateIchidanConjugations find form streq japanese option_map].
    now rewrite <- app_assoc.
  - rewrite generateConjugations_godan.
    destruct (generateGodanConjugations_total h) as (row & teForm & taForm & ->).
    exists taForm. split; reflexivity.
  - rewrite generateConjugations_suru. eexists. split; [reflexivity|].
    unfold generateSuruConjugations.
    cbn [surface find form streq japanese option_map].
    now rewrite <- app_assoc.
  - rewrite generateConjugations_kuru. eexists. split; reflexivity.
Qed.

Lemma tara_is_ta_ra_witness :
  In (js "godan") knownVerbTypes /\
  exists taForm,
    surface (js "Ta-form") (generateConjugations (js "かう") (js "godan")) = Some taForm /\
    surface (js "Tara-form") (generateConjugations (js "かう") (js "godan"))
      = Some (taForm ++ js "ら").
Proof.
  assert (K : In (js "godan") knownVerbTypes) by (vm_compute; tauto).
  split; [exact K|]. exact (tara_is_ta_ra (js "かう") (js "godan") K).
Defined.

(** The form labels and the usage notes of a verb table are the same
    fifteen, in the same order, for every known verb type and every
    reading. *)
Theorem verb_table_labels (h vt : jsstring) :
  In vt knownVerbTypes ->
  let r := generateConjugations h vt in
  option_map (map form) r =
    Some (map js ["Dictionary"; "Masu"; "Te-form"; "Ta-form"; "Mashita"; "Nai-form";
                  "Masen"; "Nakatta"; "Potential"; "Passive"; "Causative";
                  "Imperative"; "Volitional"; "Conditional"; "Tara-form"]%string) /\
  option_map (map usage) r =
    Some (map js ["Plain present/future"; "Polite present/future";
                  "Connecting, requests"; "Plain past"; "Polite past";
                  "Plain negative"; "Polite negative"; "Plain past negative";
                  "Can do"; "Is done"; "Make/let do"; "Command"; "Let's do"; "If";
                  "If/when"]%string).
Proof.
  intros [-> | [-> | [-> | ->]]]%knownVerbTypes_cases; cbv zeta.
  - rewrite generateConjugations_ichidan. split; reflexivity.
  - rewrite generateConjugations_godan.
    destruct (generateGodanConjugations_total h) as (row & teForm & taForm & ->).
    split; reflexivity.
  - rewrite generateConjugations_suru. split; reflexivity.
  - rewrite generateConjugations_kuru. split; reflexivity.
Qed.

Lemma verb_table_labels_witness :
  In (js "suru") knownVerbTypes /\
  option_map (map form) (generateConjugations (js "りょうりする") (js "suru")) =
    option_map (map form) (generateConjugations (js "みる") (js "ichidan")).
Proof.
  assert (K : In (js "suru") knownVerbTypes) by (vm_compute; tauto).
  split; [exact K|].
  rewrite (proj1 (verb_table_labels (js "りょうりする") (js "suru") K)).
  reflexivity.
Defined.

(** With verbType suru the Dictionary entry at index 0 is the reading
    itself exactly when the reading ends in する; for any other reading
    (a bare noun, the empty string) the entry is a different string. *)
Theorem suru_dictionary_iff (h : jsstring) :
  entry0 (generateConjugations h (js "suru")) = Some h
  <-> endsWith h (js "する") = true.
Proof.
  rewrite generateConjugations_suru. unfold generateSuruConjugations.
  cbn [entry0 japanese]. split.
  - intros [= E]. apply endsWith_iff. eexists. symmetry. exact E.
  - intros [p ->]%endsWith_iff.
    assert (S1 : slice (p ++ js "する") 0 (Some (-1)%Z) = p ++ js "す").
    { change (js "する") with (js "す" ++ js "る").
      rewrite app_assoc. apply slice_init_ru. }
    assert (S2 : slice (p ++ js "す") 0 (Some (-1)%Z) = p).
    { eval_js. apply slice_init_snoc. }
    rewrite S1, endsWith_app, S2. now destruct p.
Qed.

(** ** The adjective tables *)

(** [generateIAdjectiveConjugations] returns 10 forms for every reading and
    keeps the reading itself at index 0; the Polite form is the reading
    followed by です exactly when the reading ends in い (otherwise the last
    code unit of the reading has been replaced by い). *)
Theorem i_adjective_table (h : jsstring) :
  let r := Some (generateIAdjectiveConjugations h) in
  size r = Some 10 /\
  entry0 r = Some h /\
  surface (js "Polite") r = Some (slice h 0 (Some (-1)%Z) ++ js "いです") /\
  (surface (js "Polite") r = Some (h ++ js "です") <-> endsWith h (js "い") = true).
Proof.
  cbv zeta. split; [reflexivity|]. split; [reflexivity|]. split; [reflexivity|].
  cbn [surface generateIAdjectiveConjugations find form streq japanese option_map].
  change (js "いです") with (js "い" ++ js "です"). rewrite app_assoc. split.
  - intros [= E]. apply app_inv_tail in E. apply endsWith_iff. eauto.
  - intros [p ->]%endsWith_iff. change (js "い") with [12356%N].
    now rewrite slice_init_snoc.
Qed.

(** [generateNaAdjectiveConjugations] strips nothing: it returns 10 forms,
    the reading itself at index 0, and every surface text of the table is
    the whole reading followed by a suffix. *)
Theorem na_adjective_table (h : jsstring) :
  let table := generateNaAdjectiveConjugations h in
  size (Some table) = Some 10 /\
  entry0 (Some table) = Some h /\
  forall c, In c table -> exists suffix, japanese c = h ++ suffix.
Proof.
  cbv zeta. split; [reflexivity|]. split; [reflexivity|].
  intros c H. unfold generateNaAdjectiveConjugations in H. cbn [In] in H.
  repeat (destruct H as [<- | H];
          [cbn [japanese];
           first [eexists; reflexivity | exists []; now rewrite app_nil_r]|]).
  contradiction.
Qed.

(** * Further properties of the detection functions *)

Lemma endsWith_last (h k : jsstring) (d : N) :
  endsWith h (k ++ [d]) = true -> slice h (-1) None = [d].
Proof.
  intros [p ->]%endsWith_iff. rewrite app_assoc. apply slice_last_snoc.
Qed.

(** The ending-based fallback only ever answers ichidan, godan or nothing,
    and it answers exactly when the last code unit is a key of [mappings]. *)
Lemma detectFromEnding_cases (h : jsstring) :
  (In (slice h (-1) None) godanMorae
   /\ (detectFromEnding h = Some (js "ichidan") \/ detectFromEnding h = Some (js "godan")))
  \/ (~ In (slice h (-1) None) godanMorae /\ detectFromEnding h = None).
Proof.
  destruct (snoc_cases h) as [-> | (p & c & ->)].
  { right. split; [vm_compute; intuition discriminate | reflexivity]. }
  rewrite slice_last_snoc. unfold detectFromEnding.
  assert (S : endsWith (p ++ [c]) [12377%N; 12427%N] = true -> c = 12427%N).
  { intros E. apply (endsWith_last _ [12377%N] 12427%N) in E.
    rewrite slice_last_snoc in E. congruence. }
  assert (K : isKuruReading (p ++ [c]) = true -> c = 12427%N).
  { unfold isKuruReading. rewrite orb_true_iff, !streq_eq. eval_js.
    intros [E | E];
      match type of E with _ = [?a; ?b] => change [a; b] with ([a] ++ [b]) in E end;
      now apply app_inj_tail in E. }
  fold (isKuruReading (p ++ [c])).
  unfold godanMorae. cbn [map In]. eval_js. rewrite !endsWith_snoc1.
  destruct (N.eqb_spec c 12427) as [-> | Nru].
  { left. split; [tauto|]. destruct (existsb _ ichiSounds); auto. }
  repeat match goal with
         | |- context [N.eqb c ?n] =>
             destruct (N.eqb_spec c n) as [-> | ?]; cbn [orb];
             [left; split; [tauto | right; reflexivity]|]
         end.
  destruct (endsWith (p ++ [c]) [12377%N; 12427%N]);
    [exfalso; apply Nru, S; reflexivity|].
  destruct (isKuruReading (p ++ [c]));
    [exfalso; apply Nru, K; reflexivity|].
  right. split; [intuition congruence | reflexivity].
Qed.

Lemma some_js_neq (a b : jsstring) : streq a b = false -> Some a <> Some b.
Proof. intros E%streq_neq [= H]. contradiction. Qed.

(** When no tag key word matches, [detectVerbType] never answers suru or
    kuru, for any reading; and it answers [null] exactly when the final code
    unit of the reading (none for the empty reading) is not one of the nine
    keys of the godan [mappings]. *)
Theorem detectVerbType_by_ending (toLowerCase : jsstring -> jsstring)
  (h : jsstring) (tags : list jsstring) :
  containsNone (toLowerCase (join (js " ") tags)) verbTypeKeywords = true ->
  detectVerbType toLowerCase h tags <> Some (js "suru") /\
  detectVerbType toLowerCase h tags <> Some (js "kuru") /\
  (detectVerbType toLowerCase h tags = None <-> ~ In (slice h (-1) None) godanMorae).
Proof.
  intros K. rewrite (detectVerbType_no_keyword _ _ _ K).
  destruct (detectFromEnding_cases h) as [(I & [-> | ->]) | (I & ->)].
  - split; [now apply some_js_neq|]. split; [now apply some_js_neq|].
    split; [discriminate | tauto].
  - split; [now apply some_js_neq|]. split; [now apply some_js_neq|].
    split; [discriminate | tauto].
  - split; [discriminate|]. split; [discriminate|]. tauto.
Qed.

Lemma detectVerbType_by_ending_witness :
  containsNone (asciiLower (join (js " ") [js "Common word"])) verbTypeKeywords = true /\
  detectVerbType asciiLower (js "べんきょう") [js "Common word"] <> Some (js "suru") /\
  detectVerbType asciiLower (js "ねこ") [js "Common word"] = None.
Proof.
  split; [reflexivity|]. split.
  - exact (proj1 (detectVerbType_by_ending asciiLower (js "べんきょう")
                    [js "Common word"] eq_refl)).
  - apply (detectVerbType_by_ending asciiLower (js "ねこ") [js "Common word"] eq_refl).
    vm_compute. intuition discriminate.
Defined.

Lemma known_size (h vt : jsstring) :
  In vt knownVerbTypes -> size (generateConjugations h vt) = Some 15.
Proof.
  intros [-> | [-> | [-> | ->]]]%knownVerbTypes_cases.
  - reflexivity.
  - rewrite generateConjugations_godan.
    destruct (generateGodanConjugations_total h) as (row & teForm & taForm & ->).
    reflexivity.
  - reflexivity.
  - reflexivity.
Qed.

Lemma detectVerbType_known (toLowerCase : jsstring -> jsstring)
  (h : jsstring) (tags : list jsstring) (vt : jsstring) :
  detectVerbType toLowerCase h tags = Some vt -> In vt knownVerbTypes.
Proof.
  unfold detectVerbType.
  repeat match goal with
         | |- context [if ?b then Some _ else _] =>
             destruct b; [intros [= <-]; vm_compute; tauto|]
         end.
  destruct (detectFromEnding_cases h) as [(_ & [-> | ->]) | (_ & ->)];
    [intros [= <-]; vm_compute; tauto .. | discriminate].
Qed.

(** Whatever [detectVerbType] answers, tags or not, is one of the four verb
    types that [generateConjugations] knows: feeding its answer back with
    the same reading always gives a full 15-form table, never the empty
    one. *)
Theorem detectVerbType_then_generate (toLowerCase : jsstring -> jsstring)
  (h : jsstring) (tags : list jsstring) (vt : jsstring) :
  detectVerbType toLowerCase h tags = Some vt ->
  In vt knownVerbTypes /\ size (generateConjugations h vt) = Some 15.
Proof.
  intros H%detectVerbType_known. split; [exact H | now apply known_size].
Qed.

Lemma detectVerbType_then_generate_witness :
  detectVerbType asciiLower (js "はしる") [js "Godan verb with ru ending"] = Some (js "godan") /\
  size (generateConjugations (js "はしる") (js "godan")) = Some 15.
Proof.
  split; [reflexivity|].
  exact (proj2 (detectVerbType_then_generate asciiLower (js "はしる")
                  [js "Godan verb with ru ending"] (js "godan") eq_refl)).
Defined.

(** The two classifiers order their key words differently: when the tags
    mention both a godan key word (godan, v5) and an ichidan key word
    (ichidan, v1), [detectVerbType] answers godan while [detectCategory]
    answers (verb, ichidan). *)
Theorem classifiers_disagree (toLowerCase : jsstring -> jsstring)
  (h : jsstring) (tags : list jsstring) :
  includes (toLowerCase (join (js " ") tags)) (js "godan")
  || includes (toLowerCase (join (js " ") tags)) (js "v5") = true ->
  includes (toLowerCase (join (js " ") tags)) (js "ichidan")
  || includes (toLowerCase (join (js " ") tags)) (js "v1") = true ->
  detectVerbType toLowerCase h tags = Some (js "godan") /\
  detectCategory toLowerCase tags = (verb, Some (js "ichidan")).
Proof.
  intros G I. unfold detectVerbType, detectCategory. now rewrite G, I.
Qed.

Lemma classifiers_disagree_witness :
  detectVerbType asciiLower (js "いる") [js "Ichidan verb"; js "Godan verb with ru ending"]
    = Some (js "godan") /\
  detectCategory asciiLower [js "Ichidan verb"; js "Godan verb with ru ending"]
    = (verb, Some (js "ichidan")).
Proof.
  exact (classifiers_disagree asciiLower (js "いる")
           [js "Ichidan verb"; js "Godan verb with ru ending"] eq_refl eq_refl).
Defined.

(** ** The classification pipeline *)

(** [detectCategory] answers one of thirteen pairs. *)
Lemma detectCategory_cases (toLowerCase : jsstring -> jsstring)
  (partsOfSpeech : list jsstring) :
  In (detectCategory toLowerCase partsOfSpeech)
    [ (verb, Some (js "ichidan")); (verb, Some (js "godan")); (verb, Some (js "suru"));
      (verb, Some (js "kuru")); (counter, None); (adverb, None); (particle, None);
      (expression, None); (adjective_i, None); (adjective_na, None); (noun, None);
      (other, None) ].
Proof.
  unfold detectCategory.
  repeat match goal with
         | |- context [if ?b then _ else _] => destruct b; [cbn [In]; tauto|]
         end.
  cbn [In]. tauto.
Qed.

(** [detectCategory] sets a verb type exactly when the category is verb,
    and the verb type it sets is one that [generateConjugations] knows. *)
Theorem detectCategory_verbType (toLowerCase : jsstring -> jsstring)
  (partsOfSpeech : list jsstring) :
  let r := detectCategory toLowerCase partsOfSpeech in
  (fst r = verb <-> snd r <> None) /\
  (forall vt, snd r = Some vt -> In vt knownVerbTypes).
Proof.
  cbv zeta. pose proof (detectCategory_cases toLowerCase partsOfSpeech) as H.
  cbn [In] in H.
  repeat (destruct H as [<- | H];
          [cbn [fst snd]; split;
           [split; intro; congruence
           | intros vt E; inversion E; subst; vm_compute; tauto]|]).
  destruct H.
Qed.

(** What [WordDetailDialog] shows never comes from an exception, and its
    length is fixed by the category: 15 forms for a verb whose verb type is
    one of the four known ones, 10 forms for either adjective class
    (whatever the verb type field holds), and no form in every other
    case. *)
Theorem WordDetailDialog_sizes (word : Word.t) :
  let r := WordDetailDialog_conjugations word in
  (Word.category word = verb ->
     (exists vt, Word.verb_type word = Some vt /\ In vt knownVerbTypes) ->
     size r = Some 15) /\
  (Word.category word = adjective_i \/ Word.category word = adjective_na ->
     size r = Some 10) /\
  (Word.category word <> verb -> Word.category word <> adjective_i ->
     Word.category word <> adjective_na -> size r = Some 0) /\
  (Word.category word = verb ->
     (forall vt, Word.verb_type word = Some vt -> ~ In vt knownVerbTypes) ->
     size r = Some 0).
Proof.
  destruct word as [h c v]. cbv zeta. cbn [Word.category Word.verb_type].
  unfold WordDetailDialog_conjugations. cbn [Word.category Word.verb_type Word.hiragana].
  split; [|split; [|split]].
  - intros -> (vt & -> & K).
    assert (T : truthy (Some vt) = true).
    { apply knownVerbTypes_cases in K. now destruct K as [-> | [-> | [-> | ->]]]. }
    rewrite T. now apply known_size.
  - intros [-> | ->]; reflexivity.
  - intros; destruct c; try reflexivity; contradiction.
  - intros -> N. destruct v as [vt|]; [|reflexivity].
    destruct (truthy (Some vt)); [|reflexivity].
    rewrite generateConjugations_unknown; [reflexivity | auto].
Qed.

Lemma WordDetailDialog_sizes_witness :
  size (WordDetailDialog_conjugations (Word.mk (js "たべる") verb (Some (js "ichidan"))))
    = Some 15 /\
  size (WordDetailDialog_conjugations (Word.mk (js "しずか") adjective_na None)) = Some 10.
Proof.
  split.
  - refine (proj1 (WordDetailDialog_sizes
                     (Word.mk (js "たべる") verb (Some (js "ichidan")))) eq_refl _).
    eexists. split; [reflexivity|]. vm_compute. tauto.
  - refine (proj1 (proj2 (WordDetailDialog_sizes
                            (Word.mk (js "しずか") adjective_na None))) _).
    now right.
Defined.

(** The lookup route followed by the detail dialog: a word stored with the
    category and verb type that [detectCategory] computed gets 15
    conjugations when it was classified as a verb, whatever its reading,
    10 when it was classified as an adjective, and none otherwise. *)
Theorem detectCategory_then_dialog (toLowerCase : jsstring -> jsstring)
  (partsOfSpeech : list jsstring) (hiragana : jsstring) :
  let c := fst (detectCategory toLowerCase partsOfSpeech) in
  let vt := snd (detectCategory toLowerCase partsOfSpeech) in
  size (WordDetailDialog_conjugations (Word.mk hiragana c vt)) =
    Some (match c with
          | verb => 15
          | adjective_i | adjective_na => 10
          | _ => 0
          end).
Proof.
  cbv zeta. pose proof (detectCategory_cases toLowerCase partsOfSpeech) as H.
  cbn [In] in H.
  repeat (destruct H as [<- | H];
          [cbn [fst snd]; try reflexivity;
           unfold WordDetailDialog_conjugations;
           cbn [Word.category Word.verb_type Word.hiragana];
           match goal with
           | |- context [truthy (Some ?v)] =>
               change (truthy (Some v)) with true; cbv iota;
               apply known_size; vm_compute; tauto
           end|]).
  contradiction.
Qed.

(** [selectResult] does not disturb a classification of the lookup route:
    whenever [detectCategory] found a category other than "other", the form
    stores exactly the category and verb type that [detectCategory]
    returned, without consulting [detectVerbType]. *)
Theorem selectResult_keeps_detectCategory (toLowerCase : jsstring -> jsstring)
  (partsOfSpeech tags : list jsstring) (hiragana : jsstring) :
  fst (detectCategory toLowerCase partsOfSpeech) <> other ->
  selectResult toLowerCase
    (DictionaryResult.mk hiragana tags partsOfSpeech
       (Some (fst (detectCategory toLowerCase partsOfSpeech)))
       (snd (detectCategory toLowerCase partsOfSpeech)))
  = detectCategory toLowerCase partsOfSpeech.
Proof.
  pose proof (detectCategory_cases toLowerCase partsOfSpeech) as H.
  cbn [In] in H.
  repeat (destruct H as [<- | H];
          [first [intros _; reflexivity | intros N; exfalso; apply N; reflexivity]|]).
  contradiction.
Qed.

Lemma selectResult_keeps_detectCategory_witness :
  fst (detectCategory asciiLower [js "Ichidan verb"; js "Transitive verb"]) <> other /\
  selectResult asciiLower
    (DictionaryResult.mk (js "たべる") [js "common"]
       [js "Ichidan verb"; js "Transitive verb"] (Some verb) (Some (js "ichidan")))
  = (verb, Some (js "ichidan")).
Proof.
  assert (N : fst (detectCategory asciiLower [js "Ichidan verb"; js "Transitive verb"]) <> other).
  { vm_compute. discriminate. }
  split; [exact N|].
  exact (selectResult_keeps_detectCategory asciiLower
           [js "Ichidan verb"; js "Transitive verb"] [js "common"] (js "たべる") N).
Defined.

(** * Romanisation *)

Lemma get_In {A : Type} (obj : list (jsstring * A)) (key : jsstring) (v : A) :
  get obj key = Some v -> In (key, v) obj.
Proof.
  induction obj as [|[k x] obj IH]; cbn [get]; [discriminate|].
  destruct (streq key k) eqn:E.
  - apply streq_eq in E. intros [= ->]. subst. now left.
  - intros H. right. auto.
Qed.

Lemma hiraganaMap_ok : forallb hiraganaMapEntryOk hiraganaMap = true.
Proof. vm_compute. reflexivity. Qed.

Lemma hiraganaMap_entry (k v : jsstring) :
  get hiraganaMap k = Some v -> hiraganaMapEntryOk (k, v) = true.
Proof.
  intros H%get_In. exact (proj1 (forallb_forall _ _) hiraganaMap_ok _ H).
Qed.

(** Values of the table: romaji characters only, at most three. *)
Lemma hiraganaMap_value (k v : jsstring) :
  get hiraganaMap k = Some v ->
  forallb isRomajiChar v = true /\ List.length v <= 3.
Proof.
  intros H%hiraganaMap_entry. unfold hiraganaMapEntryOk in H. cbn [fst snd] in H.
  rewrite !andb_true_iff in H. destruct H as [[V L] _].
  split; [exact V | now apply Nat.leb_le].
Qed.

(** Two-unit keys: the second unit is a small kana, the first is not っ. *)
Lemma hiraganaMap_two (c d : N) :
  truthy (get hiraganaMap [c; d]) = true ->
  In [d] smallKana /\ streq [c] (js "っ") = false /\ get hiraganaMap [c] <> None.
Proof.
  destruct (get hiraganaMap [c; d]) as [v|] eqn:G; [|discriminate]. intros _.
  apply hiraganaMap_entry in G. unfold hiraganaMapEntryOk in G.
  cbn [fst snd] in G. rewrite !andb_true_iff in G.
  destruct G as [_ [[[S K] T] _]].
  apply existsb_exists in S as (x & Hx & E). apply streq_eq in E. subst x.
  split; [exact Hx|]. split; [now apply negb_true_iff|].
  destruct (get hiraganaMap [c]); [discriminate | discriminate T].
Qed.

(** The equations of the loop, with the table lookups left folded. *)
Lemma romajiLoop_one (c : N) (acc : jsstring) :
  romajiLoop [c] acc = acc ++ romajiOf c.
Proof.
  cbn [romajiLoop]. unfold romajiOf. now destruct (get hiraganaMap [c]).
Qed.

Lemma romajiLoop_two (c d : N) (rest acc : jsstring) :
  romajiLoop (c :: d :: rest) acc =
    if truthy (get hiraganaMap [c; d]) then
      romajiLoop rest (acc ++ valueOf (get hiraganaMap [c; d]))
    else if streq [c] (js "っ") then
      romajiLoop (d :: rest) (acc ++ firstn 1 (valueOf (get hiraganaMap [d])))
    else romajiLoop (d :: rest) (acc ++ romajiOf c).
Proof.
  cbn [romajiLoop]. unfold romajiOf.
  destruct (truthy (get hiraganaMap [c; d])); [reflexivity|].
  destruct (streq [c] (js "っ")).
  - destruct (get hiraganaMap [d]) as [[|x v]|]; cbn [truthy valueOf firstn empty];
      rewrite ?app_nil_r; reflexivity.
  - now destruct (get hiraganaMap [c]).
Qed.

(** Induction that follows the loop: one or two code units per round. *)
Lemma loop_ind (P : jsstring -> Prop) :
  P [] ->
  (forall c, P [c]) ->
  (forall c d rest, P rest -> P (d :: rest) -> P (c :: d :: rest)) ->
  forall h, P h.
Proof.
  intros H0 H1 H2 h.
  assert (B : P h /\ forall c, P (c :: h)).
  { induction h as [|d rest [IH1 IH2]]; [split; auto|].
    split; [apply IH2|]. intros c. apply H2; auto. }
  apply B.
Qed.

Lemma romajiLoop_acc (h acc : jsstring) :
  romajiLoop h acc = acc ++ romajiLoop h [].
Proof.
  revert acc. induction h as [|c|c d rest IH1 IH2] using loop_ind; intros acc.
  - cbn [romajiLoop]. now rewrite app_nil_r.
  - now rewrite !romajiLoop_one.
  - rewrite !romajiLoop_two.
    destruct (truthy (get hiraganaMap [c; d])).
    + rewrite IH1, (IH1 ([] ++ _)). now rewrite app_assoc.
    + destruct (streq [c] (js "っ")).
      * rewrite IH2, (IH2 ([] ++ _)). now rewrite app_assoc.
      * rewrite IH2, (IH2 ([] ++ _)). now rewrite app_assoc.
Qed.

(** On a string without the small kana ゃ, ゅ, ょ and っ, [hiraganaToRomaji]
    works code unit by code unit: the result is the concatenation of the
    table values of the code units, a code unit that is not a key standing
    for itself. *)
Theorem hiraganaToRomaji_kana_by_kana (h : jsstring) :
  (forall c, In c h -> ~ In [c] smallKana) ->
  hiraganaToRomaji h = flat_map romajiOf h.
Proof.
  unfold hiraganaToRomaji, empty.
  induction h as [|c rest IH]; intros H; [reflexivity|].
  cbn [flat_map]. destruct rest as [|d rest].
  - rewrite romajiLoop_one. cbn [flat_map]. now rewrite app_nil_r.
  - rewrite romajiLoop_two.
    destruct (truthy (get hiraganaMap [c; d])) eqn:T.
    { apply hiraganaMap_two in T as [S _]. exfalso. apply (H d); [cbn; auto | exact S]. }
    destruct (streq [c] (js "っ")) eqn:E.
    { apply streq_eq in E. exfalso. apply (H c); [cbn; auto|].
      rewrite E. vm_compute. tauto. }
    rewrite romajiLoop_acc, IH; [reflexivity|].
    intros x Hx. apply H. now right.
Qed.

Lemma hiraganaToRomaji_kana_by_kana_witness :
  hiraganaToRomaji (js "たべもの") = js "tabemono".
Proof.
  rewrite hiraganaToRomaji_kana_by_kana; [reflexivity|].
  intros c H. vm_compute in H. vm_compute.
  intuition (subst; discriminate).
Defined.

(** A string none of whose code units is a key of [hiraganaMap] (Latin
    text, kanji, katakana) comes back unchanged. *)
Theorem hiraganaToRomaji_unmapped (h : jsstring) :
  (forall c, In c h -> get hiraganaMap [c] = None) ->
  hiraganaToRomaji h = h.
Proof.
  unfold hiraganaToRomaji, empty.
  induction h as [|c rest IH]; intros H; [reflexivity|].
  assert (C : romajiOf c = [c]).
  { unfold romajiOf. now rewrite (H c) by (cbn; auto). }
  destruct rest as [|d rest].
  - now rewrite romajiLoop_one, C.
  - rewrite romajiLoop_two.
    destruct (truthy (get hiraganaMap [c; d])) eqn:T.
    { apply hiraganaMap_two in T as (_ & _ & M). exfalso. apply M, H. cbn; auto. }
    destruct (streq [c] (js "っ")) eqn:E.
    { apply streq_eq in E. injection E as ->.
      specialize (H 12387%N (or_introl eq_refl)). vm_compute in H. discriminate. }
    rewrite romajiLoop_acc, C, IH; [reflexivity|].
    intros x Hx. apply H. now right.
Qed.

Lemma hiraganaToRomaji_unmapped_witness :
  hiraganaToRomaji (js "食 neko ネコ") = js "食 neko ネコ".
Proof.
  apply hiraganaToRomaji_unmapped.
  intros c H. vm_compute in H.
  repeat (destruct H as [<- | H]; [vm_compute; reflexivity|]). destruct H.
Defined.

Lemma Forall_romaji_firstn (n : nat) (v : jsstring) :
  Forall (fun c => isRomajiChar c = true) v ->
  Forall (fun c => isRomajiChar c = true) (firstn n v).
Proof.
  intros H. rewrite <- (firstn_skipn n v) in H. now apply Forall_app in H.
Qed.

Lemma romaji_value (k : jsstring) :
  Forall (fun c => isRomajiChar c = true) (valueOf (get hiraganaMap k)).
Proof.
  destruct (get hiraganaMap k) as [v|] eqn:G; [|constructor].
  apply Forall_forall, forallb_forall. now apply (hiraganaMap_value k).
Qed.

(** When every code unit of the input is a key of [hiraganaMap], the result
    is plain romaji: each of its characters is a lower-case ASCII letter or
    the hyphen; no kana is left over. *)
Theorem hiraganaToRomaji_ascii (h : jsstring) :
  (forall c, In c h -> get hiraganaMap [c] <> None) ->
  forallb isRomajiChar (hiraganaToRomaji h) = true.
Proof.
  intros H. apply forallb_forall, Forall_forall.
  unfold hiraganaToRomaji, empty.
  assert (G : forall acc,
             Forall (fun c => isRomajiChar c = true) acc ->
             Forall (fun c => isRomajiChar c = true) (romajiLoop h acc));
    [|apply G; constructor].
  assert (S : forall c, In c h -> Forall (fun x => isRomajiChar x = true) (romajiOf c)).
  { intros c Hc. unfold romajiOf. pose proof (romaji_value [c]) as V.
    destruct (get hiraganaMap [c]) eqn:E; [exact V | now apply H in Hc]. }
  clear H. induction h as [|c|c d rest IH1 IH2] using loop_ind; intros acc A.
  - exact A.
  - rewrite romajiLoop_one. apply Forall_app. split; [exact A|]. apply S. cbn; auto.
  - rewrite romajiLoop_two.
    destruct (truthy (get hiraganaMap [c; d])).
    + apply IH1; [intros x Hx; apply S; cbn; auto|].
      apply Forall_app. split; [exact A | apply romaji_value].
    + destruct (streq [c] (js "っ")).
      * apply IH2; [intros x Hx; apply S; now right|].
        apply Forall_app. split; [exact A|].
        apply Forall_romaji_firstn, romaji_value.
      * apply IH2; [intros x Hx; apply S; now right|].
        apply Forall_app. split; [exact A|]. apply S. cbn; auto.
Qed.

Lemma hiraganaToRomaji_ascii_witness :
  forallb isRomajiChar (hiraganaToRomaji (js "きっぷをかった")) = true /\
  hiraganaToRomaji (js "きっぷをかった") = js "kippuwokatta".
Proof.
  split; [|reflexivity].
  apply hiraganaToRomaji_ascii.
  intros c H. vm_compute in H.
  repeat (destruct H as [<- | H]; [vm_compute; discriminate|]). destruct H.
Defined.

(** The doubling rule: a っ that is followed by another code unit
    contributes the first romaji character of that code unit's own table
    value (nothing when the code unit is not a key or its value is empty),
    and the rest is romanised as if the っ were not there; a っ at the very
    end contributes nothing. *)
Theorem hiraganaToRomaji_sokuon (c : N) (rest : jsstring) :
  hiraganaToRomaji (js "っ" ++ c :: rest) =
    firstn 1 (valueOf (get hiraganaMap [c])) ++ hiraganaToRomaji (c :: rest)
  /\ hiraganaToRomaji (js "っ") = empty.
Proof.
  split; [|reflexivity].
  unfold hiraganaToRomaji, empty. change (js "っ" ++ c :: rest) with (12387%N :: c :: rest).
  rewrite romajiLoop_two.
  destruct (truthy (get hiraganaMap [12387%N; c])) eqn:T.
  { apply hiraganaMap_two in T as (_ & E & _). vm_compute in E. discriminate. }
  change (streq [12387%N] (js "っ")) with true. cbv iota.
  now rewrite romajiLoop_acc.
Qed.

(** The result is at most three times as long as the input. *)
Theorem hiraganaToRomaji_length (h : jsstring) :
  List.length (hiraganaToRomaji h) <= 3 * List.length h.
Proof.
  unfold hiraganaToRomaji, empty.
  assert (V : forall k, List.length (valueOf (get hiraganaMap k)) <= 3).
  { intros k. destruct (get hiraganaMap k) eqn:G; cbn [valueOf empty List.length]; [|lia].
    now apply (hiraganaMap_value k). }
  assert (S : forall c, List.length (romajiOf c) <= 3).
  { intros c. unfold romajiOf. pose proof (V [c]) as Vc.
    destruct (get hiraganaMap [c]); [exact Vc | cbn; lia]. }
  assert (G : forall acc,
             List.length (romajiLoop h acc) <= List.length acc + 3 * List.length h);
    [|apply (G [])].
  induction h as [|c|c d rest IH1 IH2] using loop_ind; intros acc.
  - cbn. lia.
  - rewrite romajiLoop_one, length_app. pose proof (S c). cbn [List.length]. lia.
  - rewrite romajiLoop_two. cbn [List.length] in *.
    destruct (truthy (get hiraganaMap [c; d])).
    + rewrite IH1, length_app. pose proof (V [c; d]). lia.
    + destruct (streq [c] (js "っ")).
      * rewrite IH2, length_app.
        pose proof (firstn_le_length 1 (valueOf (get hiraganaMap [d]))) as F.
        pose proof (V [d]).
        assert (List.length (firstn 1 (valueOf (get hiraganaMap [d]))) <= 1)
          by (rewrite length_firstn; lia).
        lia.
      * rewrite IH2, length_app. pose proof (S c). lia.
Qed.

(** * The in-memory rate limiter *)

Module RateLimiterFacts.

Import InMemoryRateLimiter.


Lemma get_mapSet_other (k j : jsstring) (v : RateLimitTracker) (m : Tracker) :
  j <> k -> get (mapSet k v m) j = get m j.
Proof.
  intros N. induction m as [|[k' x] m IH]; cbn [mapSet get].
  - now rewrite (proj2 (streq_neq j k) N).
  - destruct (streq k k') eqn:E; cbn [get].
    + apply streq_eq in E. subst k'. now rewrite (proj2 (streq_neq j k) N).
    + now rewrite IH.
Qed.



Section Facts.

Variables windowMs maxRequests : Z.



(** [check] on one identifier leaves the entry of every other identifier
    as it was. *)
Theorem check_other_identifier (now : Z) (id other : jsstring) (tracker : Tracker) :
  other <> id ->
  getTracker other (snd (check windowMs maxRequests now id tracker)) = getTracker other tracker.
Proof.
  intros N. unfold InMemoryRateLimiter.check, getTracker.
  destruct (get tracker id) as [e|]; cbn [snd]; [|now apply get_mapSet_other].
  destruct (_ >? _)%Z; cbn [snd]; [now apply get_mapSet_other|].
  destruct (_ >=? _)%Z; cbn [snd]; [reflexivity | now apply get_mapSet_other].
Qed.



End Facts.


Lemma check_other_identifier_witness :
  js "user-2" <> js "user-1" /\
  getTracker (js "user-2")
    (snd (check feedbackWindowMs feedbackMaxRequests 7000 (js "user-1")
            [(js "user-2", mkTracker 5 9000)]))
  = Some (mkTracker 5 9000).
Proof.
  assert (N : js "user-2" <> js "user-1") by (vm_compute; discriminate).
  split; [exact N|].
  exact (check_other_identifier feedbackWindowMs feedbackMaxRequests 7000
           (js "user-1") (js "user-2") [(js "user-2", mkTracker 5 9000)] N).
Defined.



End RateLimiterFacts.
